(** * webpack-cli: lib/utils/ast-utils.js

    A shallow embedding of the AST helper layer of webpack-cli
    ([src/lib/utils/ast-utils.js]) and the properties its specification
    states about it.

    The helpers build and mutate ESTree nodes through jscodeshift.  Nodes
    are modelled as an inductive type; the in-place mutations of the
    source are modelled by state passing: every function that mutates a
    node returns the node after the mutation.  jscodeshift collections
    ([find], [filter], [forEach]) are modelled by paths (child positions
    from a root), computed before the mutations as the source does. *)

From Stdlib Require Import ZArith Ascii String DecimalString List Bool Lia.
From stdpp Require Import base list strings.
Import ListNotations.
Open Scope string_scope.
Open Scope list_scope.
Set Warnings "-register-all".

(** ** Results of fallible operations *)

(** What the source can raise: a JavaScript [TypeError], an error of an
    ast-types builder that rejects a field, the error of
    [Collection.get] on an empty collection.  [Unmodelled] marks inputs
    on which the source runs into behaviour that the node type of this
    file cannot hold (a raw description value stored in a node slot, the
    own fields of a pre-built node enumerated as if they were keys of a
    description). *)
Inductive err : Type :=
| TypeError
| BuilderError
| EmptyCollection
| Unmodelled.

Inductive res (A : Type) : Type :=
| Ok (a : A)
| Err (e : err).
Arguments Ok {A} a.
Arguments Err {A} e.

#[global] Instance res_ret : MRet res := fun A a => Ok a.
#[global] Instance res_bind : MBind res := fun A B f m =>
  match m with
  | Ok a => f a
  | Err e => Err e
  end.

(** [Array.prototype.map] with a callback that may raise. *)
Fixpoint mapR {A B} (f : A -> res B) (l : list A) : res (list B) :=
  match l with
  | [] => Ok []
  | a :: l' => b ← f a; bs ← mapR f l'; Ok (b :: bs)
  end.

(** [Array.prototype.forEach] with a callback that mutates a state and
    may raise. *)
Fixpoint foldR {A S} (f : S -> A -> res S) (s : S) (l : list A) : res S :=
  match l with
  | [] => Ok s
  | a :: l' => s' ← f s a; foldR f s' l'
  end.

(** ** JavaScript numbers

    [Number(string)] and [isNaN] are built-ins of the JavaScript runtime.
    The development is parametric in them; the fields below are the facts
    of ECMAScript (StringToNumber) that the proofs use. *)
Class JsNumber : Type := {
  num : Type;
  (** [Number(s)] for a string [s] *)
  Number : string -> num;
  isNaN : num -> bool;
  (** ToBoolean on a number *)
  num_truthy : num -> bool;
  num_eqb : num -> num -> bool;
  zero : num;
  Number_empty : Number "" = zero;
  isNaN_zero : isNaN zero = false;
  Number_true : isNaN (Number "true") = true;
  Number_false : isNaN (Number "false") = true
}.

(** *** An instance for evaluation

    Numbers as [option Z] with [None] for [NaN].  [IntNumber_of_string]
    agrees with StringToNumber on the strings made of white space, an
    optional sign and decimal digits; strings with a fraction, an
    exponent, a radix prefix or [Infinity] are outside this instance.  It
    is used to evaluate the helpers on concrete inputs. *)

Definition is_ws (c : ascii) : bool :=
  match nat_of_ascii c with
  | 9 | 10 | 11 | 12 | 13 | 32 => true
  | _ => false
  end.

Fixpoint trim_left (s : string) : string :=
  match s with
  | String c s' => if is_ws c then trim_left s' else s
  | EmptyString => s
  end.

Fixpoint rev_string (acc s : string) : string :=
  match s with
  | EmptyString => acc
  | String c s' => rev_string (String c acc) s'
  end.

Definition trim (s : string) : string :=
  rev_string "" (trim_left (rev_string "" (trim_left s))).

Definition digit_of (c : ascii) : option Z :=
  let n := nat_of_ascii c in
  if (48 <=? n)%nat && (n <=? 57)%nat then Some (Z.of_nat (n - 48)) else None.

Fixpoint digits (acc : Z) (s : string) : option Z :=
  match s with
  | EmptyString => Some acc
  | String c s' =>
      match digit_of c with
      | Some d => digits (10 * acc + d)%Z s'
      | None => None
      end
  end.

Definition unsigned_digits (s : string) : option Z :=
  match s with
  | EmptyString => None
  | _ => digits 0%Z s
  end.

Definition IntNumber_of_string (s : string) : option Z :=
  match trim s with
  | EmptyString => Some 0%Z
  | String "+"%char s' => unsigned_digits s'
  | String "-"%char s' => Z.opp <$> unsigned_digits s'
  | s' => unsigned_digits s'
  end.

Definition IntNumber_isNaN (n : option Z) : bool :=
  match n with None => true | Some _ => false end.

Definition IntNumber_truthy (n : option Z) : bool :=
  match n with
  | Some z => negb (Z.eqb z 0)
  | None => false
  end.

Definition IntNumber_eqb (a b : option Z) : bool :=
  match a, b with
  | Some x, Some y => Z.eqb x y
  | None, None => true
  | _, _ => false
  end.

#[global] Instance IntNumber : JsNumber := {|
  num := option Z;
  Number := IntNumber_of_string;
  isNaN := IntNumber_isNaN;
  num_truthy := IntNumber_truthy;
  num_eqb := IntNumber_eqb;
  zero := Some 0%Z;
  Number_empty := eq_refl;
  isNaN_zero := eq_refl;
  Number_true := eq_refl;
  Number_false := eq_refl
|}.

(** ** Strings *)

(** [s.indexOf(sub) >= 0] *)
Definition includes (sub s : string) : bool :=
  match String.index 0 sub s with
  | Some _ => true
  | None => false
  end.

(** [s.split(".")]: never empty, the empty string gives one empty part. *)
Fixpoint split_dot (s : string) : list string :=
  match s with
  | EmptyString => [""]
  | String c s' =>
      if Ascii.eqb c "."%char then "" :: split_dot s'
      else match split_dot s' with
           | [] => [String c ""]
           | p :: ps => String c p :: ps
           end
  end.

(** [parts.join(".")] *)
Definition join_dot (parts : list string) : string := String.concat "." parts.

Section WithNumber.
Context {JN : JsNumber}.

(** ** Nodes *)

(** The value of a [Literal] node. *)
Inductive LitVal : Type :=
| LStr (s : string)
| LNum (n : num)
| LBool (b : bool)
| LRegExp (pattern : string).

(** The ESTree nodes the helpers build and inspect.  [ObjectExpression]
    holds a list of nodes, not of properties, since the source pushes bare
    identifiers and literals into [properties]. *)
Inductive Node : Type :=
| Literal (v : LitVal)
| Identifier (name : string)
| Property (key value : Node)
| ObjectExpression (properties : list Node)
| ArrayExpression (elements : list Node)
| NewExpression (callee : Node) (arguments : list Node)
| MemberExpression (object property : Node).

(** ** Configuration descriptions

    The plain values the helpers receive.  An object is the list of its
    own enumerable keys with their values, in the order of [Object.keys].
    [VNode] is a pre-built node handed in as a value. *)
Inductive JsVal : Type :=
| VStr (s : string)
| VNum (n : num)
| VBool (b : bool)
| VRegExp (pattern : string)
| VArr (items : list JsVal)
| VObj (fields : list (string * JsVal))
| VNode (n : Node).

Definition Desc : Type := list (string * JsVal).

(** ** Builders of jscodeshift *)

(** [j.literal(v)]: the builder accepts strings, numbers, booleans and
    regular expressions and raises on any other value. *)
Definition j_literal (v : JsVal) : res Node :=
  match v with
  | VStr s => Ok (Literal (LStr s))
  | VNum n => Ok (Literal (LNum n))
  | VBool b => Ok (Literal (LBool b))
  | VRegExp p => Ok (Literal (LRegExp p))
  | VArr _ | VObj _ | VNode _ => Err BuilderError
  end.

(** The builders check that the value of a property is an expression. *)
Definition isExpression (n : Node) : bool :=
  match n with
  | Property _ _ => false
  | _ => true
  end.

(** [j.property("init", key, value)] *)
Definition j_property (key value : Node) : res Node :=
  if isExpression key && isExpression value then Ok (Property key value)
  else Err BuilderError.

(** ** Scalar values *)

(** [createLiteral], lines 129-144. *)
Definition createLiteral (val : JsVal) : res Node :=
  match val with
  | VStr s =>
      let literalVal := val in
      let literalVal := if String.eqb s "true" then VBool true else literalVal in
      let literalVal := if String.eqb s "false" then VBool false else literalVal in
      let literalVal :=
        if negb (isNaN (Number s)) then VNum (Number s) else literalVal in
      j_literal literalVal
  | _ => j_literal val
  end.

(** [createIdentifierOrLiteral], lines 155-185.  A value with [__paths]
    (a jscodeshift collection, read by [createExternalRegExp]) is not in
    [JsVal], and the branches on [val.__paths] are not modelled: an object
    of a description with a field [__paths] is treated here as any other
    object. *)
Definition createIdentifierOrLiteral (val : JsVal) : res Node :=
  match val with
  | VStr s =>
      if String.eqb s "true" then j_literal (VBool true)
      else if String.eqb s "false" then j_literal (VBool false)
      else if negb (isNaN (Number s)) then j_literal (VNum (Number s))
      else Ok (Identifier s)
  | _ => j_literal val
  end.

(** [createProperty], lines 108-118. *)
Definition createProperty (key : string) (value : JsVal) : res Node :=
  k ← createIdentifierOrLiteral (VStr key);
  v ← createLiteral value;
  j_property k v.

(** [createObjectWithSuppliedProperty], lines 469-475. *)
Definition createObjectWithSuppliedProperty (key : string) (prop : Node)
  : res Node :=
  j_property (Identifier key) prop.

(** ** Trees and paths

    A jscodeshift path is modelled by the positions of the children that
    lead from a root to a node.  The children of a node are listed in the
    order in which ast-types visits the fields. *)

Definition children (n : Node) : list Node :=
  match n with
  | Literal _ | Identifier _ => []
  | Property k v => [k; v]
  | ObjectExpression ps => ps
  | ArrayExpression es => es
  | NewExpression c args => c :: args
  | MemberExpression o p => [o; p]
  end.

Definition withChildren (n : Node) (cs : list Node) : Node :=
  match n, cs with
  | Property _ _, [k; v] => Property k v
  | ObjectExpression _, ps => ObjectExpression ps
  | ArrayExpression _, es => ArrayExpression es
  | NewExpression _ _, c :: args => NewExpression c args
  | MemberExpression _ _, [o; p] => MemberExpression o p
  | _, _ => n
  end.

Definition Path : Type := list nat.

(** The node at a path, if the path is in the tree. *)
Fixpoint nodeAt (p : Path) (n : Node) : option Node :=
  match p with
  | [] => Some n
  | i :: p' => c ← children n !! i; nodeAt p' c
  end.

(** Mutate the node at a path in place. *)
Fixpoint modifyAt (p : Path) (f : Node -> res Node) (n : Node) : res Node :=
  match p with
  | [] => f n
  | i :: p' =>
      match children n !! i with
      | Some c =>
          c' ← modifyAt p' f c;
          Ok (withChildren n (<[i:=c']> (children n)))
      | None => Err Unmodelled
      end
  end.

(** [collection.find(type)]: the paths of the strict descendants of the
    root that satisfy [sel], in the order of the traversal (a node before
    its children, children from left to right).  The root itself is not
    reported. *)
Fixpoint find (sel : Node -> bool) (n : Node) {struct n} : list Path :=
  let visit c := (if sel c then [[]] else []) ++ find sel c in
  let visitAll :=
    fix visitAll (i : nat) (cs : list Node) {struct cs} : list Path :=
      match cs with
      | [] => []
      | c :: cs' =>
          map (cons i) ((if sel c then [[]] else []) ++ find sel c)
          ++ visitAll (S i) cs'
      end in
  match n with
  | Literal _ | Identifier _ => []
  | Property k v => map (cons 0) (visit k) ++ map (cons 1) (visit v)
  | ObjectExpression ps => visitAll 0 ps
  | ArrayExpression es => visitAll 0 es
  | NewExpression c args => map (cons 0) (visit c) ++ visitAll 1 args
  | MemberExpression o p => map (cons 0) (visit o) ++ map (cons 1) (visit p)
  end.

Definition isNewExpression (n : Node) : bool :=
  match n with NewExpression _ _ => true | _ => false end.
Definition isObjectExpression (n : Node) : bool :=
  match n with ObjectExpression _ => true | _ => false end.
Definition isIdentifier (n : Node) : bool :=
  match n with Identifier _ => true | _ => false end.
Definition isProperty (n : Node) : bool :=
  match n with Property _ _ => true | _ => false end.

(** [node.name]: [None] is [undefined]. *)
Definition nameOf (n : Node) : option string :=
  match n with Identifier s => Some s | _ => None end.

(** [node.value] of a key or an element: [None] is [undefined]. *)
Definition litValueOf (n : Node) : option LitVal :=
  match n with Literal v => Some v | _ => None end.

(** [safeTraverse(n, ["key", "name"])], lines 16-28: [None] is
    [null] or [undefined]. *)
Definition keyName (n : Node) : option string :=
  match n with Property k _ => nameOf k | _ => None end.

(** ** Dotted names *)

(** [undefined] joins as the empty string. *)
Definition orEmpty (o : option string) : string := default "" o.

(** [memberExpressionToPathString], lines 31-38. *)
Fixpoint memberExpressionToPathString (path : Node) : option string :=
  match path with
  | MemberExpression o p =>
      Some (join_dot [orEmpty (memberExpressionToPathString o);
                      orEmpty (nameOf p)])
  | _ => nameOf path
  end.

(** [pathsToMemberExpression], lines 41-54: [None] is [null].  The call
    on [paths.slice(0, 1)] is the identifier of the first part. *)
Fixpoint pathsToMemberExpression (paths : list string) : option Node :=
  match paths with
  | [] => None
  | [x] => Some (Identifier x)
  | x :: rest =>
      match pathsToMemberExpression rest, Some (Identifier x) with
      | Some o, Some p => Some (MemberExpression o p)
      | _, _ => None
      end
  end.

(** [findPluginsByName], lines 67-78. *)
Definition isPluginCall (pluginNamesArray : list string) (n : Node) : bool :=
  match n with
  | NewExpression callee _ =>
      existsb (fun plugin =>
        match memberExpressionToPathString callee with
        | Some s => String.eqb s plugin
        | None => false
        end) pluginNamesArray
  | _ => false
  end.

Definition findPluginsByName (node : Node) (pluginNamesArray : list string)
  : list Path :=
  find (isPluginCall pluginNamesArray) node.

(** ** Plugins *)

(** [opt.key.value === path.value.name], line 232: the left side is the
    value of a literal key or [undefined], the right side is a string. *)
Definition sameKey (opt ident : Node) : bool :=
  match opt, ident with
  | Property k _, Identifier name =>
      match litValueOf k with
      | Some (LStr s) => String.eqb s name
      | _ => false
      end
  | _, _ => false
  end.

(** Lines 228-243, for one option: [q] is the path of the object whose
    [properties] are [currentProps], relative to the constructor call. *)
Definition mergeOption (q : Path) (call : Node) (opt : Node) : res Node :=
  match nodeAt q call with
  | Some obj =>
      let existingProps :=
        List.filter (fun p => match nodeAt p obj with
                              | Some i => sameKey opt i
                              | None => false
                              end)
                    (find isIdentifier obj) in
      match existingProps with
      | [] =>
          modifyAt q (fun o =>
            match o with
            | ObjectExpression ps => Ok (ObjectExpression (ps ++ [opt]))
            | _ => Err TypeError
            end) call
      | _ =>
          foldR (fun c p => modifyAt (removelast (q ++ p)) (fun _ => Ok opt) c)
                call existingProps
      end
  | None => Err Unmodelled
  end.

(** The callback of [pluginInstancePath.forEach], lines 217-249. *)
Definition updatePluginCall (optionsProps : option (list Node)) (call : Node)
  : res Node :=
  match optionsProps, call with
  | Some props, NewExpression callee args =>
      match args with
      | _ :: _ =>
          match find isObjectExpression call with
          | q :: _ => foldR (mergeOption q) call props
          | [] => Err EmptyCollection
          end
      | [] => Ok (NewExpression callee [ObjectExpression props])
      end
  | Some _, _ => Err TypeError
  | None, _ => Ok call
  end.

(** [createOrUpdatePluginByName], lines 199-261.  [rootNode] is the node
    of [rootNodePath]; [options] is [None] when the argument is absent. *)
Definition createOrUpdatePluginByName (rootNode : Node) (pluginName : string)
    (options : option Desc) : res Node :=
  let pluginInstancePath := findPluginsByName rootNode [pluginName] in
  optionsProps ←
    match options with
    | Some d => props ← mapR (fun kv => createProperty kv.1 kv.2) d; Ok (Some props)
    | None => Ok None
    end;
  match pluginInstancePath with
  | _ :: _ =>
      foldR (fun root p => modifyAt p (updatePluginCall optionsProps) root)
            rootNode pluginInstancePath
  | [] =>
      let argumentsArray :=
        match optionsProps with
        | Some props => [ObjectExpression props]
        | None => []
        end in
      match pathsToMemberExpression (rev (split_dot pluginName)), rootNode with
      | Some callee, ArrayExpression elements =>
          Ok (ArrayExpression (elements ++ [NewExpression callee argumentsArray]))
      | None, _ => Err BuilderError
      | Some _, _ => Err TypeError
      end
  end.

(** ** Objects *)

(** [p.properties.push(n)] *)
Definition pushProperty (n : Node) (p : Node) : res Node :=
  match p with
  | ObjectExpression ps => Ok (ObjectExpression (ps ++ [n]))
  | _ => Err TypeError
  end.

(** [arr.value.elements.push(n)] on a property whose value is an array. *)
Definition pushElement (n : Node) (arr : Node) : res Node :=
  match arr with
  | Property k (ArrayExpression es) => Ok (Property k (ArrayExpression (es ++ [n])))
  | _ => Err TypeError
  end.

(** The key under which [Object.keys] lists the element [i] of an array. *)
Definition indexKey (i : nat) : string := NilZero.string_of_uint (Nat.to_uint i).

(** [createEmptyArrayProperty], lines 363-368. *)
Definition createEmptyArrayProperty (key : string) : res Node :=
  j_property (Identifier key) (ArrayExpression []).

(** [loopThroughObjects], lines 420-457, with the body of
    [createArrayWithChildren] for [shouldDropKeys] (lines 389-399) in
    [eachElement].  [Object.keys] of a number, a boolean or a regular
    expression is empty; of an array it is the list of the indices.  The
    nested object of the last branch is fresh and only reachable through
    the property that holds it, so it is filled before the property is
    pushed. *)
Fixpoint loopThroughObjects (p : Node) (obj : JsVal) {struct obj} : res Node :=
  let eachElement :=
    fix eachElement (arr : Node) (subProps : list JsVal) {struct subProps}
      : res Node :=
      match subProps with
      | [] => Ok arr
      | subProperty :: rest =>
          arr' ←
            match subProperty with
            | VStr _ =>
                n ← createIdentifierOrLiteral subProperty; pushElement n arr
            | _ =>
                objectOfArray ← loopThroughObjects (ObjectExpression []) subProperty;
                pushElement objectOfArray arr
            end;
          eachElement arr' rest
      end in
  let eachKey (p : Node) (prop : string) (v : JsVal) : res Node :=
    if includes "inject" prop then
      propertyExpression ← createIdentifierOrLiteral v;
      pushProperty propertyExpression p
    else
      match v with
      | VStr _ | VNum _ | VBool _ | VRegExp _ =>
          if isObjectExpression p then
            n ← createIdentifierOrLiteral v;
            pr ← createObjectWithSuppliedProperty prop n;
            pushProperty pr p
          else Err TypeError
      | VArr items =>
          arr ← createEmptyArrayProperty prop;
          arrayProp ← eachElement arr items;
          pushProperty arrayProp p
      | VObj _ | VNode _ =>
          objectBlock ← loopThroughObjects (ObjectExpression []) v;
          propertyOfBlock ← createObjectWithSuppliedProperty prop objectBlock;
          pushProperty propertyOfBlock p
      end in
  match obj with
  | VObj fields =>
      (fix eachField (p : Node) (fs : list (string * JsVal)) {struct fs}
         : res Node :=
         match fs with
         | [] => Ok p
         | (prop, v) :: fs' => p' ← eachKey p prop v; eachField p' fs'
         end) p fields
  | VArr items =>
      (fix eachIndex (p : Node) (i : nat) (vs : list JsVal) {struct vs}
         : res Node :=
         match vs with
         | [] => Ok p
         | v :: vs' => p' ← eachKey p (indexKey i) v; eachIndex p' (S i) vs'
         end) p 0 items
  | VNum _ | VBool _ | VRegExp _ => Ok p
  | VStr _ | VNode _ => Err Unmodelled
  end.

(** [createArrayWithChildren], lines 381-408. *)
Definition createArrayWithChildren (key : string) (subProps : JsVal)
    (shouldDropKeys : bool) : res Node :=
  arr ← createEmptyArrayProperty key;
  if shouldDropKeys then
    match subProps with
    | VArr items =>
        foldR (fun arr subProperty =>
          match subProperty with
          | VStr _ => n ← createIdentifierOrLiteral subProperty; pushElement n arr
          | _ =>
              objectOfArray ← loopThroughObjects (ObjectExpression []) subProperty;
              pushElement objectOfArray arr
          end) arr items
    | _ => Err TypeError
    end
  else
    match subProps with
    | VObj fields =>
        match List.find (fun kv => String.eqb kv.1 key) fields with
        | Some (_, VObj sub) =>
            foldR (fun arr kv => n ← createIdentifierOrLiteral kv.2; pushElement n arr)
                  arr sub
        | Some (_, VArr items) =>
            foldR (fun arr v => n ← createIdentifierOrLiteral v; pushElement n arr)
                  arr items
        | Some (_, (VNum _ | VBool _ | VRegExp _)) => Ok arr
        | Some (_, (VStr _ | VNode _)) => Err Unmodelled
        | None => Err TypeError
        end
    | _ => Err Unmodelled
    end.

(** [prop.key.name === key] on an element of [properties]. *)
Definition hasKey (key : string) (prop : Node) : bool :=
  match keyName prop with
  | Some s => String.eqb s key
  | None => false
  end.

(** [existingProp[0].value = value], lines 347-349: the first property
    whose key name is [key] gets the value; [None] when no property
    matches. *)
Fixpoint assignFirst (key : string) (value : Node) (ps : list Node)
  : option (list Node) :=
  match ps with
  | [] => None
  | prop :: ps' =>
      if hasKey key prop then
        match prop with
        | Property k _ => Some (Property k value :: ps')
        | _ => None
        end
      else cons prop <$> assignFirst key value ps'
  end.

(** [checkIfExistsAndAddValue], lines 337-354, on the object
    [node.value].  [prop.key.name] raises on an element of [properties]
    without a key.  A [value] that is not a node is rejected by the builder when the
    property is created; stored into an existing property it leaves a
    tree that [Node] cannot hold. *)
Definition checkIfExistsAndAddValue (obj : Node) (key : string) (value : JsVal)
  : res Node :=
  match obj with
  | ObjectExpression ps =>
      if forallb isProperty ps then
        match value with
        | VNode n =>
            match assignFirst key n ps with
            | Some ps' => Ok (ObjectExpression ps')
            | None =>
                prop ← j_property (Identifier key) n;
                Ok (ObjectExpression (ps ++ [prop]))
            end
        | _ => if existsb (hasKey key) ps then Err Unmodelled else Err BuilderError
        end
      else Err TypeError
  | _ => Err TypeError
  end.

(** [pushCreateProperty], lines 501-516, on the object [p.value]. *)
Definition pushCreateProperty (obj : Node) (key : string) (val : JsVal)
  : res Node :=
  property ←
    match val with
    | VNode n => Ok n
    | _ => createIdentifierOrLiteral val
    end;
  if isObjectExpression obj then
    pr ← createObjectWithSuppliedProperty key property;
    pushProperty pr obj
  else Err TypeError.

(** ** Merging into a named property *)

Section Merge.

(** [hashtable], required from [./hashtable] at line 14: the step that
    removes the duplicates of the merged array. *)
Variable hashtable : list JsVal -> list JsVal.

Definition valueOfLit (v : LitVal) : JsVal :=
  match v with
  | LStr s => VStr s
  | LNum n => VNum n
  | LBool b => VBool b
  | LRegExp r => VRegExp r
  end.

(** ToBoolean of the value of a literal *)
Definition truthy (v : LitVal) : bool :=
  match v with
  | LStr s => negb (String.eqb s "")
  | LNum n => num_truthy n
  | LBool b => b
  | LRegExp _ => true
  end.

(** [if (elem.value) arraytomerge.push(elem.value)], lines 560-564 *)
Definition elemValue (elem : Node) : list JsVal :=
  match elem with
  | Literal v => if truthy v then [valueOfLit v] else []
  | Property _ v => [VNode v]
  | _ => []
  end.

(** The callback of line 558 on one found property. *)
Definition mergeArray (items : list JsVal) (property : Node) : res Node :=
  match property with
  | Property _ (ArrayExpression elements) =>
      let arraytomerge := flat_map elemValue elements ++ items in
      let hashtableForProps := hashtable arraytomerge in
      foldR (fun property elem =>
               n ← createIdentifierOrLiteral elem; pushElement n property)
            property hashtableForProps
  | _ => Err TypeError
  end.

(** The positions of [p.value.properties.filter(...)], line 536. *)
Fixpoint propsNamed (name : string) (i : nat) (ps : list Node) : list nat :=
  match ps with
  | [] => []
  | n :: ps' =>
      (if hasKey name n then [i] else []) ++ propsNamed name (S i) ps'
  end.

(** [prop.value.properties.push(n)], where [prop] is the property at
    position [i] of the object [pv]. *)
Definition inProp (i : nat) (f : Node -> res Node) (pv : Node) : res Node :=
  modifyAt [i; 1] f pv.

(** [pushObjectKeys], lines 528-609, on the object [pv] that is [p.value]
    (the node of the path at the first call, the value of the property
    [prop] in the recursive calls).  In both cases the properties that
    [j(p).find(j.Property, ...)] reports are the strict descendants of
    [pv].  The test on [__paths] of line 586 is not modelled: an object
    with a field [__paths] is treated as a nested mapping. *)
Fixpoint pushObjectKeys (pv : Node) (webpackProperties : JsVal)
    (name : string) (reassign : bool) {struct webpackProperties} : res Node :=
  match pv with
  | ObjectExpression ps =>
      foldR (fun pv prop =>
        match webpackProperties with
        | VObj fields =>
            (fix eachKey (pv : Node) (fs : list (string * JsVal)) {struct fs}
               : res Node :=
               match fs with
               | [] => Ok pv
               | (webpackProp, v) :: fs' =>
                   pv' ←
                     (if includes "inject" webpackProp then
                        if reassign then
                          inProp prop (fun o =>
                            checkIfExistsAndAddValue o webpackProp v) pv
                        else
                          inProp prop (fun o =>
                            if isObjectExpression o then
                              n ← createIdentifierOrLiteral v; pushProperty n o
                            else Err TypeError) pv
                      else
                        match v with
                        | VArr items =>
                            if reassign then
                              foldR (fun pv property =>
                                       modifyAt property (mergeArray items) pv)
                                    pv (find (hasKey webpackProp) pv)
                            else
                              propArray ← createArrayWithChildren webpackProp v true;
                              inProp prop (pushProperty propArray) pv
                        | VStr _ | VNum _ | VBool _ | VRegExp _ =>
                            inProp prop (fun o => pushCreateProperty o webpackProp v) pv
                        | VObj _ | VNode _ =>
                            pv1 ←
                              (if reassign then Ok pv
                               else inProp prop (fun o =>
                                      pushCreateProperty o webpackProp
                                        (VNode (ObjectExpression []))) pv);
                            inProp prop (fun o =>
                              pushObjectKeys o v webpackProp reassign) pv1
                        end);
                   eachKey pv' fs'
               end) pv fields
        | _ => Err Unmodelled
        end) pv (propsNamed name 0 ps)
  | _ => Err TypeError
  end.

End Merge.

(** ** Removing duplicates *)

Definition LitVal_eqb (a b : LitVal) : bool :=
  match a, b with
  | LStr x, LStr y => String.eqb x y
  | LNum x, LNum y => num_eqb x y
  | LBool x, LBool y => Bool.eqb x y
  | LRegExp x, LRegExp y => String.eqb x y
  | _, _ => false
  end.

Fixpoint Node_eqb (a b : Node) {struct a} : bool :=
  let all :=
    fix all (xs ys : list Node) {struct xs} : bool :=
      match xs, ys with
      | [], [] => true
      | x :: xs', y :: ys' => Node_eqb x y && all xs' ys'
      | _, _ => false
      end in
  match a, b with
  | Literal x, Literal y => LitVal_eqb x y
  | Identifier x, Identifier y => String.eqb x y
  | Property k v, Property k' v' => Node_eqb k k' && Node_eqb v v'
  | ObjectExpression xs, ObjectExpression ys => all xs ys
  | ArrayExpression xs, ArrayExpression ys => all xs ys
  | NewExpression c xs, NewExpression c' ys => Node_eqb c c' && all xs ys
  | MemberExpression o q, MemberExpression o' q' => Node_eqb o o' && Node_eqb q q'
  | _, _ => false
  end.

Fixpoint JsVal_eqb (a b : JsVal) {struct a} : bool :=
  match a, b with
  | VStr x, VStr y => String.eqb x y
  | VNum x, VNum y => num_eqb x y
  | VBool x, VBool y => Bool.eqb x y
  | VRegExp x, VRegExp y => String.eqb x y
  | VArr xs, VArr ys =>
      (fix all (xs ys : list JsVal) {struct xs} : bool :=
         match xs, ys with
         | [], [] => true
         | x :: xs', y :: ys' => JsVal_eqb x y && all xs' ys'
         | _, _ => false
         end) xs ys
  | VObj xs, VObj ys =>
      (fix all (xs ys : list (string * JsVal)) {struct xs} : bool :=
         match xs, ys with
         | [], [] => true
         | (k, x) :: xs', (k', y) :: ys' =>
             String.eqb k k' && JsVal_eqb x y && all xs' ys'
         | _, _ => false
         end) xs ys
  | VNode x, VNode y => Node_eqb x y
  | _, _ => false
  end.

(** Modelled from the spec: the function [hashtable] of [./hashtable],
    which is not among the sources.  The specification describes the step
    as a removal of duplicates by value that keeps the order of the first
    occurrences. *)
Fixpoint dedupe_from (seen : list JsVal) (arr : list JsVal) : list JsVal :=
  match arr with
  | [] => []
  | item :: arr' =>
      if existsb (JsVal_eqb item) seen then dedupe_from seen arr'
      else item :: dedupe_from (item :: seen) arr'
  end.

Definition dedupe (arr : list JsVal) : list JsVal := dedupe_from [] arr.

(** ** The statements of the specification, as definitions *)

(** The coercion rule for a string: a boolean for ["true"] and
    ["false"], a number for a string that parses as one, and otherwise a
    string literal, or an identifier where one is requested. *)
Definition coerceScalar (identifier : bool) (s : string) : Node :=
  if String.eqb s "true" then Literal (LBool true)
  else if String.eqb s "false" then Literal (LBool false)
  else if negb (isNaN (Number s)) then Literal (LNum (Number s))
  else if identifier then Identifier s
  else Literal (LStr s).

Definition isScalar (v : JsVal) : bool :=
  match v with
  | VStr _ | VNum _ | VBool _ | VRegExp _ => true
  | _ => false
  end.

(** The node of a scalar value of a description. *)
Definition scalarNode (v : JsVal) : Node :=
  match v with
  | VStr s => coerceScalar true s
  | VNum n => Literal (LNum n)
  | VBool b => Literal (LBool b)
  | VRegExp r => Literal (LRegExp r)
  | _ => ObjectExpression []
  end.

(** The node that a value of a description stands for: scalars by the
    coercion rule, sequences as arrays, mappings as objects with one entry
    per key, in the order of the keys.  The entry of a key is a property
    [key: value], except for a key with the marker ["inject"], whose
    scalar value is the entry itself. *)
Fixpoint valueNode (v : JsVal) : Node :=
  match v with
  | VArr items => ArrayExpression (map valueNode items)
  | VObj fields =>
      ObjectExpression
        (map (fun kv =>
                if includes "inject" kv.1 then scalarNode kv.2
                else Property (Identifier kv.1) (valueNode kv.2)) fields)
  | _ => scalarNode v
  end.

Definition entryNode (kv : string * JsVal) : Node :=
  if includes "inject" kv.1 then scalarNode kv.2
  else Property (Identifier kv.1) (valueNode kv.2).

(** Descriptions made of scalars, of sequences of strings and mappings,
    and of mappings, where the value of a key with the marker is a
    scalar. *)
Fixpoint buildable (v : JsVal) : bool :=
  match v with
  | VStr _ | VNum _ | VBool _ | VRegExp _ => true
  | VArr items =>
      forallb (fun item =>
        match item with
        | VStr _ => true
        | VObj _ => buildable item
        | _ => false
        end) items
  | VObj fields =>
      forallb (fun kv =>
        if includes "inject" kv.1 then isScalar kv.2 else buildable kv.2) fields
  | VNode _ => false
  end.

(** [node.value], the value that the toolkit reads back from a node. *)
Definition readBack (n : Node) : option JsVal :=
  match n with
  | Literal v => Some (valueOfLit v)
  | _ => None
  end.

(** The local function [eachElement] of [loopThroughObjects]. *)
Definition eachElement : Node -> list JsVal -> res Node :=
  fix eachElement (arr : Node) (subProps : list JsVal) {struct subProps}
    : res Node :=
    match subProps with
    | [] => Ok arr
    | subProperty :: rest =>
        arr' ←
          match subProperty with
          | VStr _ =>
              n ← createIdentifierOrLiteral subProperty; pushElement n arr
          | _ =>
              objectOfArray ← loopThroughObjects (ObjectExpression []) subProperty;
              pushElement objectOfArray arr
          end;
        eachElement arr' rest
    end.

(** The literal of a scalar value of an option of a plugin. *)
Definition literalNode (v : JsVal) : Node :=
  match v with
  | VStr s => coerceScalar false s
  | _ => scalarNode v
  end.

(** The property that an option [key: value] of a plugin stands for. *)
Definition optionProperty (kv : string * JsVal) : Node :=
  Property (coerceScalar true kv.1) (literalNode kv.2).

(** The paths that [find] reports below the children [cs], numbered from
    [i]; [visit] is the case of one child, itself included. *)
Definition visit (sel : Node -> bool) (c : Node) : list Path :=
  (if sel c then [[]] else []) ++ find sel c.

Fixpoint visitAll (sel : Node -> bool) (i : nat) (cs : list Node) : list Path :=
  match cs with
  | [] => []
  | c :: cs' => map (cons i) (visit sel c) ++ visitAll sel (S i) cs'
  end.

(** A constructor call after the options [props] were attached to it: as
    the only argument of a call without arguments, at the end of the
    object that is the first argument otherwise. *)
Definition withOptions (props : list Node) (call : Node) : Node :=
  match call with
  | NewExpression callee [] => NewExpression callee [ObjectExpression props]
  | NewExpression callee (ObjectExpression ps :: rest) =>
      NewExpression callee (ObjectExpression (ps ++ props) :: rest)
  | _ => call
  end.

(** A constructor call for [name] that holds no further call for [name]
    and that has no argument, or an object as its first argument and no
    object in its callee. *)
Definition plainCall (name : string) (call : Node) : bool :=
  match call with
  | NewExpression callee args =>
      isPluginCall [name] call
      && match find (isPluginCall [name]) call with [] => true | _ => false end
      && match args with
         | [] => true
         | ObjectExpression _ :: _ =>
             match find isObjectExpression callee with [] => true | _ => false end
         | _ => false
         end
  | _ => false
  end.

(** A node that neither is nor holds a constructor call for [name]. *)
Definition noCall (name : string) (n : Node) : bool :=
  match visit (isPluginCall [name]) n with [] => true | _ => false end.

(** The elements of a plugins array that are calls for [name] get the
    options; the other elements are left as they are. *)
Definition upsertElement (name : string) (props : list Node) (c : Node) : Node :=
  if isPluginCall [name] c then withOptions props c else c.

(** The node that [loopThroughObjects] pushes for the key [prop] with the
    value [v] (the body of the callback of line 425). *)
Definition propertyFor (prop : string) (v : JsVal) : res Node :=
  if includes "inject" prop then createIdentifierOrLiteral v
  else
    match v with
    | VStr _ | VNum _ | VBool _ | VRegExp _ =>
        n ← createIdentifierOrLiteral v;
        createObjectWithSuppliedProperty prop n
    | VArr _ => createArrayWithChildren prop v true
    | VObj _ | VNode _ =>
        objectBlock ← loopThroughObjects (ObjectExpression []) v;
        createObjectWithSuppliedProperty prop objectBlock
    end.

(** The element that [createArrayWithChildren] pushes for [subProperty]
    (the body of the callback of line 389). *)
Definition elementFor (subProperty : JsVal) : res Node :=
  match subProperty with
  | VStr _ => createIdentifierOrLiteral subProperty
  | _ => loopThroughObjects (ObjectExpression []) subProperty
  end.

(** The round trip of the generated object as the specification states
    it: the keys of the object are the keys of the description, in the
    same order, and every scalar of the description is read back from the
    value of its property, ["true"] and ["false"] as booleans, any other
    string as that string, a number as that number. *)
Definition statedLeaf (v : JsVal) : JsVal :=
  match v with
  | VStr s =>
      if String.eqb s "true" then VBool true
      else if String.eqb s "false" then VBool false
      else VStr s
  | _ => v
  end.

Definition roundTripsAsStated (d : Desc) : Prop :=
  exists props,
    loopThroughObjects (ObjectExpression []) (VObj d) = Ok (ObjectExpression props) /\
    map keyName props = map (fun kv => Some kv.1) d /\
    Forall2 (fun kv n =>
               isScalar kv.2 = true ->
               exists k val, n = Property k val /\
                             readBack val = Some (statedLeaf kv.2))
            d props.

(** ** Further helpers of the file *)

(** [findRootNodesByName], lines 90-96: the properties below [node] whose
    key is named [propName]. *)
Definition findRootNodesByName (node : Node) (propName : string) : list Path :=
  find (hasKey propName) node.

(** [findObjWithOneOfKeys], lines 298-303, on the object [p.value].
    [prop.key.name] raises on an element of [properties] without a key;
    [keyNames.indexOf(undefined)] is [-1]. *)
Definition findObjWithOneOfKeys (obj : Node) (keyNames : list string) : res bool :=
  match obj with
  | ObjectExpression properties =>
      foldR (fun predicate prop =>
               match prop with
               | Property key _ =>
                   Ok (match nameOf key with
                       | Some name => existsb (String.eqb name) keyNames
                       | None => false
                       end || predicate)
               | _ => Err TypeError
               end) false properties
  | _ => Err TypeError
  end.

(** [Object.keys] of an array with its elements: the indices, as keys. *)
Fixpoint indexed (i : nat) (items : list JsVal) : Desc :=
  match items with
  | [] => []
  | v :: vs => (indexKey i, v) :: indexed (S i) vs
  end.

(** The value of the first property with the key name [key]. *)
Fixpoint valueOfKey (key : string) (ps : list Node) : option Node :=
  match ps with
  | [] => None
  | p :: ps' =>
      if hasKey key p then
        match p with Property _ v => Some v | _ => None end
      else valueOfKey key ps'
  end.

(** A value that is neither a mapping nor a pre-built node. *)
Definition isFlat (v : JsVal) : bool :=
  match v with
  | VObj _ | VNode _ => false
  | _ => true
  end.

(** The values of the fields of a node.  [FNull] and [FUndefined] are
    [null] and [undefined]. *)
Inductive FieldVal : Type :=
| FUndefined
| FNull
| FNode (n : Node)
| FNodes (l : list Node)
| FLit (v : LitVal)
| FString (s : string).

Definition nodeType (n : Node) : string :=
  match n with
  | Literal _ => "Literal"
  | Identifier _ => "Identifier"
  | Property _ _ => "Property"
  | ObjectExpression _ => "ObjectExpression"
  | ArrayExpression _ => "ArrayExpression"
  | NewExpression _ _ => "NewExpression"
  | MemberExpression _ _ => "MemberExpression"
  end.

(** [n[field]] for the fields of the nodes of [Node]. *)
Definition fieldOf (n : Node) (field : string) : FieldVal :=
  if String.eqb field "type" then FString (nodeType n)
  else
    match n with
    | Literal v => if String.eqb field "value" then FLit v else FUndefined
    | Identifier s => if String.eqb field "name" then FString s else FUndefined
    | Property k v =>
        if String.eqb field "key" then FNode k
        else if String.eqb field "value" then FNode v
        else FUndefined
    | ObjectExpression ps =>
        if String.eqb field "properties" then FNodes ps else FUndefined
    | ArrayExpression es =>
        if String.eqb field "elements" then FNodes es else FUndefined
    | NewExpression c args =>
        if String.eqb field "callee" then FNode c
        else if String.eqb field "arguments" then FNodes args
        else FUndefined
    | MemberExpression o p =>
        if String.eqb field "object" then FNode o
        else if String.eqb field "property" then FNode p
        else FUndefined
    end.

(** ToBoolean of the value of a field *)
Definition FieldVal_truthy (v : FieldVal) : bool :=
  match v with
  | FNode _ | FNodes _ => true
  | FLit l => truthy l
  | FString s => negb (String.eqb s "")
  | FUndefined | FNull => false
  end.

(** What [createArrayWithChildren] pushes for an item of a sequence. *)
Definition elementShape (item : JsVal) (e : Node) : Prop :=
  match item with
  | VStr s => e = coerceScalar true s
  | VNum _ | VBool _ | VRegExp _ => e = ObjectExpression []
  | _ => isObjectExpression e = true
  end.

(** An object whose properties have the key names of [ps], in order. *)
Definition sameKeys (ps : list Node) (s : Node) : Prop :=
  exists ps', s = ObjectExpression ps' /\ map keyName ps' = map keyName ps.

(** [val.__paths] is set: the value is an object with a field [__paths],
    which [createIdentifierOrLiteral] reads as a parsed fragment. *)
Definition carriesPaths (v : JsVal) : bool :=
  match v with
  | VObj fields => existsb (fun kv => String.eqb kv.1 "__paths") fields
  | _ => false
  end.

(** Whether a part of a dotted name holds a dot. *)
Fixpoint hasDot (s : string) : bool :=
  match s with
  | EmptyString => false
  | String c s' => Ascii.eqb c "."%char || hasDot s'
  end.

(** The nested member access [first.p1. ... .pn]. *)
Definition nestedMember (first : string) (rest : list string) : Node :=
  fold_left (fun object part => MemberExpression object (Identifier part))
            rest (Identifier first).

(** The value of the property that [loopThroughObjects] pushes for a key
    without the marker: the literal or identifier of a scalar (line 440),
    the array of the elements of a sequence (lines 387-399), the object
    filled from a nested mapping (lines 447-453). *)
Definition valueFor (v : JsVal) : res Node :=
  match v with
  | VStr _ | VNum _ | VBool _ | VRegExp _ => createIdentifierOrLiteral v
  | VArr items => es ← mapR elementFor items; Ok (ArrayExpression es)
  | VObj _ | VNode _ => loopThroughObjects (ObjectExpression []) v
  end.

End WithNumber.

(** ** Inputs for evaluation

    Nodes and descriptions over [IntNumber]. *)

Definition int (z : Z) : @Node IntNumber := Literal (LNum (Some z)).
Definition str (s : string) : @Node IntNumber := Literal (LStr s).
Definition prop (key : string) (value : @Node IntNumber) : @Node IntNumber :=
  Property (Identifier key) value.

(** [webpack.DefinePlugin] *)
Definition webpackDefinePlugin : @Node IntNumber :=
  MemberExpression (Identifier "webpack") (Identifier "DefinePlugin").

(** [webpack.optimize.DedupePlugin] *)
Definition webpackOptimizeDedupePlugin : @Node IntNumber :=
  MemberExpression (MemberExpression (Identifier "webpack") (Identifier "optimize"))
                   (Identifier "DedupePlugin").

(** [{ entry: { arr: elements } }] *)
Definition entryWithArray (elements : list (@Node IntNumber)) : @Node IntNumber :=
  ObjectExpression [prop "entry" (ObjectExpression [prop "arr" (ArrayExpression elements)])].


(** ** [safeTraverse]

    [safeTraverse], lines 16-28, for any kind of values: [js_get] is
    [val[key]], [js_truthy] is ToBoolean, [js_null] is [null]. *)
Class JsObject (V : Type) : Type := {
  js_get : V -> string -> V;
  js_truthy : V -> bool;
  js_null : V;
  js_null_falsy : js_truthy js_null = false
}.

Fixpoint safeTraverse {V : Type} `{JsObject V} (val : V) (paths : list string) : V :=
  match paths with
  | [] => val
  | key :: rest =>
      if js_truthy val then safeTraverse (js_get val key) rest else js_null
  end.

(** The nodes as values, with the fields of [fieldOf].  The fields that
    the parser adds to a node ([loc], [comments]) and the elements and the
    length of a list or of a string are outside this instance. *)
Definition FieldVal_get `{JsNumber} (v : FieldVal) (field : string) : FieldVal :=
  match v with
  | FNode n => fieldOf n field
  | _ => FUndefined
  end.

#[global] Instance FieldVal_object `{JsNumber} : JsObject FieldVal := {|
  js_get := FieldVal_get;
  js_truthy := FieldVal_truthy;
  js_null := FNull;
  js_null_falsy := eq_refl
|}.

(** [{ a: 1, a: 2 }] and [{ entry: { a: 1 }, output: 'dist' }] *)
Definition twoProperties : list (@Node IntNumber) := [prop "a" (int 1); prop "a" (int 2)].
Definition entryAndOutput : list (@Node IntNumber) :=
  [prop "entry" (ObjectExpression [prop "a" (int 1)]); prop "output" (str "dist")].

(** [[new webpack.DefinePlugin()]] *)
Definition definePluginOnly : @Node IntNumber :=
  ArrayExpression [NewExpression webpackDefinePlugin []].

(** That [createOrUpdatePluginByName] appends one constructor call with
    one object as argument when no call for the name is found, as the
    specification states it for every description of options. *)
Definition appendsOneCallAsStated (elements : list (@Node IntNumber))
    (name : string) (options : @Desc IntNumber) : Prop :=
  exists callee argument,
    createOrUpdatePluginByName (ArrayExpression elements) name (Some options)
    = Ok (ArrayExpression
            (elements ++ [NewExpression callee [ObjectExpression argument]])) /\
    memberExpressionToPathString callee = Some name.

(** That every constructor call for the name without arguments gains one
    object as argument, as the specification states it for every plugins
    array and every description of options. *)
Definition gainsOneArgumentAsStated (elements : list (@Node IntNumber))
    (name : string) (options : @Desc IntNumber) : Prop :=
  exists elements',
    createOrUpdatePluginByName (ArrayExpression elements) name (Some options)
    = Ok (ArrayExpression elements') /\
    forall i callee,
      elements !! i = Some (NewExpression callee []) ->
      memberExpressionToPathString callee = Some name ->
      exists argument,
        elements' !! i = Some (NewExpression callee [ObjectExpression argument]).

(** * Properties *)

Section Properties.
Context {JN : JsNumber}.

(** ** Scalars *)

(** C2: under [createLiteral] and under [createIdentifierOrLiteral] the
    string ["true"] becomes the boolean literal [true], ["false"] the
    boolean literal [false], a string that parses as a number a numeric
    literal; any other string becomes a string literal under
    [createLiteral] and an identifier under [createIdentifierOrLiteral]. *)
Theorem scalar_coercion (s : string) :
  createLiteral (VStr s) = Ok (coerceScalar false s) /\
  createIdentifierOrLiteral (VStr s) = Ok (coerceScalar true s).
Proof.
  unfold createLiteral, createIdentifierOrLiteral, coerceScalar.
  destruct (String.eqb_spec s "true") as [-> | Ht].
  - rewrite Number_true. split; reflexivity.
  - destruct (String.eqb_spec s "false") as [-> | Hf].
    + rewrite Number_false. split; reflexivity.
    + destruct (isNaN (Number s)); split; reflexivity.
Qed.

(** C10: for the empty string both [createLiteral] and
    [createIdentifierOrLiteral] return the numeric literal 0, which is
    neither a string literal nor an identifier. *)
Theorem empty_string_is_zero :
  createLiteral (VStr "") = Ok (Literal (LNum zero)) /\
  createIdentifierOrLiteral (VStr "") = Ok (Literal (LNum zero)) /\
  createLiteral (VStr "") <> Ok (Literal (LStr "")) /\
  createIdentifierOrLiteral (VStr "") <> Ok (Identifier "").
Proof.
  assert (H1 : createLiteral (VStr "") = Ok (Literal (LNum zero))).
  { unfold createLiteral. cbn [String.eqb].
    rewrite Number_empty, isNaN_zero. reflexivity. }
  assert (H2 : createIdentifierOrLiteral (VStr "") = Ok (Literal (LNum zero))).
  { unfold createIdentifierOrLiteral. cbn [String.eqb].
    rewrite Number_empty, isNaN_zero. reflexivity. }
  rewrite H1, H2. repeat split; congruence.
Qed.

Lemma coerceScalar_isExpression b s : isExpression (coerceScalar b s) = true.
Proof.
  unfold coerceScalar.
  repeat match goal with |- context [if ?c then _ else _] => destruct c end;
    reflexivity.
Qed.

Lemma createIdentifierOrLiteral_scalar v :
  isScalar v = true -> createIdentifierOrLiteral v = Ok (scalarNode v).
Proof.
  destruct v; try discriminate; intros _; try reflexivity.
  apply scalar_coercion.
Qed.

Lemma createLiteral_scalar v :
  isScalar v = true -> createLiteral v = Ok (literalNode v).
Proof.
  destruct v; try discriminate; intros _; try reflexivity.
  apply scalar_coercion.
Qed.

Lemma scalarNode_isExpression v : isExpression (scalarNode v) = true.
Proof. destruct v; try reflexivity. apply coerceScalar_isExpression. Qed.

Lemma literalNode_isExpression v : isExpression (literalNode v) = true.
Proof.
  destruct v; try reflexivity; cbn.
  apply coerceScalar_isExpression.
Qed.

Lemma createProperty_scalar key v :
  isScalar v = true -> createProperty key v = Ok (optionProperty (key, v)).
Proof.
  intros Hv. unfold createProperty.
  rewrite (createIdentifierOrLiteral_scalar (VStr key)) by reflexivity.
  rewrite createLiteral_scalar by assumption. cbn.
  unfold j_property.
  rewrite coerceScalar_isExpression, literalNode_isExpression. reflexivity.
Qed.

Lemma mapR_createProperty_scalar (options : Desc) :
  forallb (fun kv => isScalar kv.2) options = true ->
  mapR (fun kv => createProperty kv.1 kv.2) options
  = Ok (map optionProperty options).
Proof.
  induction options as [| [k v] options IH]; [reflexivity |].
  cbn [forallb mapR fst snd]. intros H. apply andb_prop in H as [Hv Hrest].
  rewrite createProperty_scalar by assumption.
  rewrite IH by assumption. reflexivity.
Qed.

(** ** Dotted names *)

Lemma split_dot_nonempty s : split_dot s <> [].
Proof.
  destruct s as [| c s]; cbn; [discriminate |].
  destruct (Ascii.eqb c "."); [discriminate |].
  destruct (split_dot s); discriminate.
Qed.

Lemma join_dot_cons x l :
  l <> [] -> join_dot (x :: l) = String.append x (String.append "." (join_dot l)).
Proof. destruct l; [congruence | reflexivity]. Qed.

Lemma join_split_dot s : join_dot (split_dot s) = s.
Proof.
  induction s as [| c s IH]; [reflexivity |].
  cbn [split_dot]. destruct (Ascii.eqb_spec c ".") as [-> | Hc].
  - rewrite join_dot_cons by apply split_dot_nonempty. rewrite IH. reflexivity.
  - pose proof (split_dot_nonempty s) as Hne.
    destruct (split_dot s) as [| p ps]; [congruence |].
    destruct ps as [| p' ps].
    + cbn in *. congruence.
    + change (join_dot (String c p :: p' :: ps))
        with (String c (join_dot (p :: p' :: ps))).
      rewrite IH. reflexivity.
Qed.

Lemma string_app_assoc (a b c : string) :
  String.append (String.append a b) c = String.append a (String.append b c).
Proof.
  induction a as [| x a IH]; [reflexivity |].
  change (String x (String.append (String.append a b) c)
          = String x (String.append a (String.append b c))).
  rewrite IH. reflexivity.
Qed.

Lemma join_dot_snoc l x :
  l <> [] ->
  join_dot (l ++ [x]) = String.append (join_dot l) (String.append "." x).
Proof.
  induction l as [| y l IH]; [congruence |]. intros _.
  destruct l as [| z l].
  - reflexivity.
  - change ((y :: z :: l) ++ [x]) with (y :: ((z :: l) ++ [x])).
    rewrite join_dot_cons by (destruct l; discriminate).
    rewrite IH by discriminate.
    rewrite (join_dot_cons y (z :: l)) by discriminate.
    rewrite !string_app_assoc. reflexivity.
Qed.

(** The nested member expression built from the reversed parts of a
    dotted name reads back as the dotted name. *)
Lemma pathsToMemberExpression_name (l : list string) :
  l <> [] ->
  exists callee,
    pathsToMemberExpression l = Some callee /\
    memberExpressionToPathString callee = Some (join_dot (rev l)).
Proof.
  induction l as [| x l IH]; [congruence |]. intros _.
  destruct l as [| y l].
  - exists (Identifier x). split; reflexivity.
  - destruct IH as (o & Ho & Hname); [discriminate |].
    exists (MemberExpression o (Identifier x)). split.
    + change (pathsToMemberExpression (x :: y :: l))
        with (match pathsToMemberExpression (y :: l), Some (Identifier x) with
              | Some o, Some p => Some (MemberExpression o p)
              | _, _ => None
              end).
      rewrite Ho. reflexivity.
    + cbn [memberExpressionToPathString nameOf orEmpty default].
      rewrite Hname. cbn [default].
      change (rev (x :: y :: l)) with (rev (y :: l) ++ [x]).
      rewrite join_dot_snoc; [reflexivity |].
      cbn. destruct (rev l); discriminate.
Qed.

Lemma callee_of_name (pluginName : string) :
  exists callee,
    pathsToMemberExpression (rev (split_dot pluginName)) = Some callee /\
    memberExpressionToPathString callee = Some pluginName.
Proof.
  destruct (pathsToMemberExpression_name (rev (split_dot pluginName)))
    as (callee & Hc & Hn).
  - intros H. apply (f_equal (@rev string)) in H. rewrite rev_involutive in H.
    exact (split_dot_nonempty _ H).
  - exists callee. split; [exact Hc |].
    rewrite Hn, rev_involutive, join_split_dot. reflexivity.
Qed.

(** ** Plugins *)


Lemma split_dot_parts s :
  forallb (fun part => negb (hasDot part)) (split_dot s) = true.
Proof.
  induction s as [| c s IH]; [reflexivity |]. cbn [split_dot].
  destruct (Ascii.eqb c ".") eqn:Hc.
  - cbn [forallb hasDot negb andb]. exact IH.
  - destruct (split_dot s) as [| p ps]; cbn [forallb hasDot] in IH |- *.
    + rewrite Hc. reflexivity.
    + rewrite Hc. exact IH.
Qed.

Lemma pathsToMemberExpression_nested (rest : list string) : forall first,
  pathsToMemberExpression (rev (first :: rest)) = Some (nestedMember first rest).
Proof.
  induction rest as [| x rest IH] using rev_ind; intros first; [reflexivity |].
  change (first :: rest ++ [x]) with ((first :: rest) ++ [x]).
  rewrite rev_app_distr. cbn [rev app].
  unfold nestedMember. rewrite fold_left_app. cbn [fold_left].
  fold (nestedMember first rest).
  specialize (IH first). cbn [rev] in IH.
  destruct (rev rest ++ [first]) as [| y l] eqn:Hl.
  - destruct (rev rest); discriminate.
  - change (pathsToMemberExpression (x :: y :: l))
      with (match pathsToMemberExpression (y :: l), Some (Identifier x) with
            | Some o, Some p => Some (MemberExpression o p)
            | _, _ => None
            end).
    rewrite IH. reflexivity.
Qed.

(** C3, as the code has it: when no constructor call for the name is in
    the plugins array and the values of the options are scalars,
    [createOrUpdatePluginByName] appends exactly one constructor call.
    Its callee is the nested member access [first.p1. ... .pn] of the
    parts of the name, which hold no dot and join with dots to the name,
    and it reads back as the name; its single argument is the object
    built from the options. *)
Theorem plugin_not_found_appended
    (elements : list Node) (pluginName : string) (options : Desc)
    (Hnone : findPluginsByName (ArrayExpression elements) [pluginName] = [])
    (Hscalar : forallb (fun kv => isScalar kv.2) options = true) :
  exists first rest,
    join_dot (first :: rest) = pluginName /\
    forallb (fun part => negb (hasDot part)) (first :: rest) = true /\
    memberExpressionToPathString (nestedMember first rest) = Some pluginName /\
    createOrUpdatePluginByName (ArrayExpression elements) pluginName (Some options)
    = Ok (ArrayExpression
            (elements ++
             [NewExpression (nestedMember first rest)
                [ObjectExpression (map optionProperty options)]])).
Proof.
  pose proof (join_split_dot pluginName) as Hjoin.
  pose proof (split_dot_parts pluginName) as Hparts.
  destruct (callee_of_name pluginName) as (callee & Hc & Hn).
  destruct (split_dot pluginName) as [| first rest] eqn:Hsplit.
  { exfalso. exact (split_dot_nonempty _ Hsplit). }
  rewrite pathsToMemberExpression_nested in Hc. injection Hc as <-.
  exists first, rest. repeat split; try assumption.
  unfold createOrUpdatePluginByName.
  rewrite Hnone, mapR_createProperty_scalar by assumption.
  cbn [mbind res_bind]. rewrite Hsplit, pathsToMemberExpression_nested.
  reflexivity.
Qed.

(** *** Paths *)

Lemma find_children (sel : Node -> bool) (n : Node) :
  find sel n = visitAll sel 0 (children n).
Proof.
  assert (Hall : forall cs i,
    (fix visitAll (i : nat) (cs : list Node) {struct cs} : list Path :=
       match cs with
       | [] => []
       | c :: cs' =>
           map (cons i) ((if sel c then [[]] else []) ++ find sel c)
           ++ visitAll (S i) cs'
       end) i cs = visitAll sel i cs).
  { induction cs as [| c cs IH]; intros i; [reflexivity |].
    cbn [visitAll]. rewrite <- IH. reflexivity. }
  destruct n; cbn [find children visitAll]; rewrite ?Hall, ?app_nil_r;
    reflexivity.
Qed.

Lemma visitAll_app sel i (l1 l2 : list Node) :
  visitAll sel i (l1 ++ l2)
  = visitAll sel i l1 ++ visitAll sel (i + length l1) l2.
Proof.
  revert i. induction l1 as [| c l1 IH]; intros i; cbn [visitAll app length].
  - rewrite Nat.add_0_r. reflexivity.
  - rewrite IH, <- app_assoc.
    replace (S i + length l1) with (i + S (length l1)) by lia. reflexivity.
Qed.

Lemma modifyAt_child (i : nat) (f : Node -> res Node) (pre post : list Node)
    (c : Node) :
  length pre = i ->
  modifyAt [i] f (ArrayExpression (pre ++ c :: post))
  = (c' ← f c; Ok (ArrayExpression (pre ++ c' :: post))).
Proof.
  intros <-. cbn [modifyAt children].
  rewrite list_lookup_middle by reflexivity.
  destruct (f c) as [c' | e]; [| reflexivity]. cbn.
  rewrite insert_app_r_alt by lia.
  rewrite Nat.sub_diag. reflexivity.
Qed.

(** In an array whose elements hold no nested match, [forEach] over the
    found paths mutates the matching elements one after the other. *)
Lemma forEach_elements (sel : Node -> bool) (f : Node -> res Node)
    (pre es : list Node) :
  Forall (fun c => find sel c = []) es ->
  foldR (fun root p => modifyAt p f root) (ArrayExpression (pre ++ es))
        (visitAll sel (length pre) es)
  = (es' ← mapR (fun c => if sel c then f c else Ok c) es;
     Ok (ArrayExpression (pre ++ es'))).
Proof.
  intros Hes. revert pre.
  induction Hes as [| c es Hc Hes IH]; intros pre.
  - cbn. reflexivity.
  - cbn [visitAll mapR]. unfold visit. rewrite Hc, app_nil_r.
    assert (Hnext : forall c',
      foldR (fun root p => modifyAt p f root) (ArrayExpression (pre ++ c' :: es))
            (visitAll sel (S (length pre)) es)
      = (es' ← mapR (fun c => if sel c then f c else Ok c) es;
         Ok (ArrayExpression (pre ++ c' :: es')))).
    { intros c'. specialize (IH (pre ++ [c'])).
      rewrite length_app, Nat.add_1_r in IH. cbn [length] in IH.
      rewrite <- app_assoc in IH. cbn [app] in IH. rewrite IH.
      destruct (mapR _ es); [| reflexivity]. cbn.
      rewrite <- app_assoc. reflexivity. }
    destruct (sel c).
    + cbn [map app foldR]. rewrite modifyAt_child by reflexivity.
      destruct (f c) as [c' | e]; [| reflexivity]. cbn.
      rewrite Hnext. destruct (mapR _ es); reflexivity.
    + cbn [map app]. rewrite Hnext.
      destruct (mapR _ es); reflexivity.
Qed.

(** *** One constructor call *)

Lemma sameKey_optionProperty kv (i : Node) : sameKey (optionProperty kv) i = false.
Proof.
  unfold optionProperty, sameKey, coerceScalar. destruct i; try reflexivity.
  repeat match goal with |- context [if ?c then _ else _] => destruct c end;
    reflexivity.
Qed.

Lemma filter_none {A} (f : A -> bool) (l : list A) :
  (forall a, f a = false) -> List.filter f l = [].
Proof.
  intros Hf. induction l as [| a l IH]; [reflexivity |].
  cbn. rewrite Hf. exact IH.
Qed.

(** The search of line 230 never finds the key of an option: the key of
    the option is an identifier or a boolean or numeric literal, and its
    [value] is never the name of an identifier.  The option is pushed. *)
Lemma mergeOption_appends callee ps rest kv :
  mergeOption [1] (NewExpression callee (ObjectExpression ps :: rest))
              (optionProperty kv)
  = Ok (NewExpression callee (ObjectExpression (ps ++ [optionProperty kv]) :: rest)).
Proof.
  unfold mergeOption. cbn [nodeAt children lookup list_lookup mbind option_bind].
  rewrite filter_none; [reflexivity |].
  intros p. destruct (nodeAt p (ObjectExpression ps)); [| reflexivity].
  apply sameKey_optionProperty.
Qed.

Lemma forEach_mergeOption callee rest (options : Desc) : forall ps,
  foldR (mergeOption [1]) (NewExpression callee (ObjectExpression ps :: rest))
        (map optionProperty options)
  = Ok (NewExpression callee
          (ObjectExpression (ps ++ map optionProperty options) :: rest)).
Proof.
  induction options as [| kv options IH]; intros ps; cbn [map foldR].
  - rewrite app_nil_r. reflexivity.
  - rewrite mergeOption_appends. cbn. rewrite IH, <- app_assoc. reflexivity.
Qed.

Lemma pluginCall_callee name callee args :
  isPluginCall [name] (NewExpression callee args) = true ->
  memberExpressionToPathString callee = Some name /\
  isNewExpression callee = false /\ isObjectExpression callee = false.
Proof.
  cbn. destruct (memberExpressionToPathString callee) as [s |] eqn:Hs;
    [| discriminate].
  rewrite orb_false_r. intros H%String.eqb_eq. subst s.
  split; [reflexivity |]. destruct callee; cbn in Hs; try discriminate;
    split; reflexivity.
Qed.

Lemma updatePluginCall_plainCall name (options : Desc) (call : Node) :
  plainCall name call = true ->
  updatePluginCall (Some (map optionProperty options)) call
  = Ok (withOptions (map optionProperty options) call).
Proof.
  destruct call as [| | | | | callee args |]; try discriminate.
  unfold plainCall. intros H.
  apply andb_prop in H as [H Hargs]. apply andb_prop in H as [Hsel Hnest].
  apply pluginCall_callee in Hsel as (_ & _ & Hobj).
  destruct args as [| a rest]; [reflexivity |].
  destruct a as [| | | ps | | |]; try discriminate.
  unfold updatePluginCall.
  rewrite (find_children isObjectExpression). cbn [children visitAll].
  unfold visit at 1. rewrite Hobj.
  destruct (find isObjectExpression callee); [| discriminate].
  cbn [app map visit isObjectExpression].
  rewrite forEach_mergeOption. reflexivity.
Qed.

Lemma noCall_spec name (c : Node) :
  noCall name c = true ->
  isPluginCall [name] c = false /\ find (isPluginCall [name]) c = [].
Proof.
  unfold noCall, visit. destruct (isPluginCall [name] c); [discriminate |].
  cbn. destruct (find _ c); [split; reflexivity | discriminate].
Qed.

Lemma plainCall_spec name (c : Node) :
  plainCall name c = true ->
  isPluginCall [name] c = true /\ find (isPluginCall [name]) c = [].
Proof.
  destruct c; try discriminate. unfold plainCall. intros H.
  apply andb_prop in H as [H _]. apply andb_prop in H as [Hsel Hnest].
  split; [exact Hsel |]. destruct (find _ _); [reflexivity | discriminate].
Qed.

(** *** The plugins array *)

Lemma upsert_elements (es : list Node) (name : string) (options : Desc) :
  forallb (fun c => plainCall name c || noCall name c) es = true ->
  existsb (plainCall name) es = true ->
  forallb (fun kv => isScalar kv.2) options = true ->
  createOrUpdatePluginByName (ArrayExpression es) name (Some options)
  = Ok (ArrayExpression (map (upsertElement name (map optionProperty options)) es)).
Proof.
  intros Hall Hex Hscalar. unfold createOrUpdatePluginByName.
  rewrite mapR_createProperty_scalar by assumption. cbn [mbind res_bind].
  unfold findPluginsByName. rewrite find_children. cbn [children].
  set (sel := isPluginCall [name]).
  set (props := map optionProperty options).
  assert (Hflat : Forall (fun c => find sel c = []) es).
  { apply List.Forall_forall. intros c Hc.
    rewrite forallb_forall in Hall. specialize (Hall c Hc).
    apply orb_prop in Hall as [H | H].
    - apply plainCall_spec in H. tauto.
    - apply noCall_spec in H. tauto. }
  assert (Hmap : mapR (fun c => if sel c then updatePluginCall (Some props) c
                                 else Ok c) es
                 = Ok (map (upsertElement name props) es)).
  { clear Hex Hflat. unfold sel. induction es as [| c es IH]; [reflexivity |].
    cbn [forallb] in Hall. apply andb_prop in Hall as [Hc Hall].
    cbn [mapR map]. rewrite IH by assumption. unfold upsertElement at 2.
    apply orb_prop in Hc as [H | H].
    - pose proof (plainCall_spec _ _ H) as [-> _].
      unfold props. rewrite (updatePluginCall_plainCall name) by assumption.
      reflexivity.
    - pose proof (noCall_spec _ _ H) as [-> _]. reflexivity. }
  pose proof (forEach_elements sel (updatePluginCall (Some props)) [] es Hflat)
    as Hfold.
  cbn [app length] in Hfold. rewrite Hmap in Hfold. cbn in Hfold.
  destruct (visitAll sel 0 es) as [| p paths] eqn:Hpaths.
  - exfalso. apply existsb_exists in Hex as (c & Hin & Hc).
    apply plainCall_spec in Hc as [Hc _].
    apply in_split in Hin as (l1 & l2 & ->).
    rewrite visitAll_app in Hpaths. cbn [visitAll] in Hpaths.
    unfold visit in Hpaths. fold sel in Hc. rewrite Hc in Hpaths.
    apply app_eq_nil in Hpaths as [_ Hpaths]. discriminate.
  - exact Hfold.
Qed.

Lemma plainCall_no_arguments name callee :
  memberExpressionToPathString callee = Some name ->
  findPluginsByName callee [name] = [] ->
  plainCall name (NewExpression callee []) = true.
Proof.
  intros Hname Hnest. unfold plainCall.
  assert (Hsel : isPluginCall [name] (NewExpression callee []) = true).
  { cbn. rewrite Hname, String.eqb_refl. reflexivity. }
  rewrite Hsel, find_children. cbn [children visitAll]. unfold visit.
  unfold findPluginsByName in Hnest. rewrite Hnest.
  assert (Hc : isPluginCall [name] callee = false).
  { destruct callee; try reflexivity. discriminate. }
  rewrite Hc. reflexivity.
Qed.

(** C7, as the code has it: a constructor call for the name that has no
    arguments and whose callee holds no call for the name gains exactly
    one argument, the object built from the options with their scalar
    values coerced, when the values of the options are scalars and every
    other element of the array either holds no call for the name, or is
    itself a call for the name that holds no further call for the name
    and has no argument, or has an object as its first argument and no
    object in its callee.  Those other calls get the options as well; the
    elements without a call stay as they are. *)
Theorem plugin_without_arguments_gains_object
    (es1 es2 : list Node) (callee : Node) (name : string) (options : Desc)
    (Hname : memberExpressionToPathString callee = Some name)
    (Hcallee : findPluginsByName callee [name] = [])
    (Hothers : forallb (fun c => plainCall name c || noCall name c) (es1 ++ es2)
               = true)
    (Hscalar : forallb (fun kv => isScalar kv.2) options = true) :
  createOrUpdatePluginByName
    (ArrayExpression (es1 ++ NewExpression callee [] :: es2)) name (Some options)
  = Ok (ArrayExpression
          (map (upsertElement name (map optionProperty options)) es1 ++
           NewExpression callee [ObjectExpression (map optionProperty options)]
           :: map (upsertElement name (map optionProperty options)) es2)).
Proof.
  pose proof (plainCall_no_arguments _ _ Hname Hcallee) as Hplain.
  rewrite forallb_app in Hothers. apply andb_prop in Hothers as [H1 H2].
  rewrite upsert_elements; try assumption.
  - rewrite map_app. cbn [map]. unfold upsertElement at 2.
    apply plainCall_spec in Hplain as [-> _]. reflexivity.
  - rewrite forallb_app. cbn [forallb]. rewrite H1, H2, Hplain. reflexivity.
  - rewrite existsb_app. cbn [existsb]. rewrite Hplain.
    rewrite orb_true_r. reflexivity.
Qed.

(** *** Properties of an object *)

Lemma assignFirst_first key value (ps1 ps2 : list Node) (k old : Node) :
  existsb (hasKey key) ps1 = false ->
  nameOf k = Some key ->
  assignFirst key value (ps1 ++ Property k old :: ps2)
  = Some (ps1 ++ Property k value :: ps2).
Proof.
  intros Hnone Hk. induction ps1 as [| p ps1 IH]; cbn [app assignFirst].
  - unfold hasKey. cbn [keyName]. rewrite Hk, String.eqb_refl. reflexivity.
  - cbn [existsb] in Hnone. apply orb_false_elim in Hnone as [Hp Hnone].
    rewrite Hp, IH by assumption. reflexivity.
Qed.


(** ** Building an object from a description *)

Lemma foldR_ext {A S} (f g : S -> A -> res S) (l : list A) :
  (forall s a, f s a = g s a) -> forall s, foldR f s l = foldR g s l.
Proof.
  intros Hfg. induction l as [| a l IH]; intros s; [reflexivity |].
  cbn [foldR]. rewrite Hfg. destruct (g s a); [apply IH | reflexivity].
Qed.

Lemma createArrayWithChildren_elements key (items : list JsVal) :
  createArrayWithChildren key (VArr items) true
  = foldR (fun arr sub => n ← elementFor sub; pushElement n arr)
          (Property (Identifier key) (ArrayExpression [])) items.
Proof.
  unfold createArrayWithChildren, createEmptyArrayProperty. cbn.
  apply foldR_ext. intros arr sub. destruct sub; reflexivity.
Qed.

Lemma eachElement_foldR items : forall arr,
  eachElement arr items
  = foldR (fun arr sub => n ← elementFor sub; pushElement n arr) arr items.
Proof.
  induction items as [| sub items IH]; intros arr; [reflexivity |].
  cbn [eachElement foldR]. fold eachElement.
  replace (match sub with
           | VStr _ =>
               createIdentifierOrLiteral sub ≫= λ n : Node, pushElement n arr
           | _ =>
               loopThroughObjects (ObjectExpression []) sub
               ≫= λ objectOfArray : Node, pushElement objectOfArray arr
           end)
    with (elementFor sub ≫= λ n : Node, pushElement n arr)
    by (destruct sub; reflexivity).
  destruct (elementFor sub ≫= _); [apply IH | reflexivity].
Qed.

(** [loopThroughObjects] on an object pushes, key after key, the node of
    each key; it raises what the first failing key raises. *)
Lemma loop_VObj (fields : Desc) : forall ps,
  loopThroughObjects (ObjectExpression ps) (VObj fields)
  = (nodes ← mapR (fun kv => propertyFor kv.1 kv.2) fields;
     Ok (ObjectExpression (ps ++ nodes))).
Proof.
  induction fields as [| [k v] fields IH]; intros ps.
  - cbn. rewrite app_nil_r. reflexivity.
  - cbn [mapR fst snd]. cbn [loopThroughObjects] in IH |- *.
    fold eachElement.
    assert (Hstep : forall n : Node,
      mapR (fun kv => propertyFor kv.1 kv.2) fields
        ≫= (fun nodes => Ok (ObjectExpression ((ps ++ [n]) ++ nodes)))
      = (mapR (fun kv => propertyFor kv.1 kv.2) fields ≫= fun bs => Ok (n :: bs))
        ≫= (fun nodes => Ok (ObjectExpression (ps ++ nodes)))).
    { intros n. destruct (mapR _ fields); [| reflexivity]. cbn.
      rewrite <- app_assoc. reflexivity. }
    unfold propertyFor.
    destruct (includes "inject" k); [| destruct v]; cbn [isObjectExpression].
    all: try rewrite createArrayWithChildren_elements, <- eachElement_foldR.
    all: unfold createEmptyArrayProperty;
      cbn [j_property isExpression andb mbind res_bind].
    all: repeat (match goal with
                 | |- mbind _ (mbind _ ?m) = _ =>
                     destruct m as [? | ?]; cbn [mbind res_bind];
                     [| reflexivity]
                 end).
    all: try (cbn [pushProperty mbind res_bind]; rewrite IH; apply Hstep).
    all: try reflexivity.
Qed.

Lemma JsVal_nested_ind (P : JsVal -> Prop)
    (HStr : forall s, P (VStr s)) (HNum : forall n, P (VNum n))
    (HBool : forall b, P (VBool b)) (HRegExp : forall r, P (VRegExp r))
    (HArr : forall items, List.Forall P items -> P (VArr items))
    (HObj : forall fields, List.Forall (fun kv => P kv.2) fields -> P (VObj fields))
    (HNode : forall n, P (VNode n)) :
  forall v, P v.
Proof.
  fix IH 1. intros [s | n | b | r | items | fields | n].
  - apply HStr.
  - apply HNum.
  - apply HBool.
  - apply HRegExp.
  - apply HArr. induction items as [| a items IHitems]; constructor;
      [apply IH | exact IHitems].
  - apply HObj. induction fields as [| [k a] fields IHfields]; constructor;
      [apply IH | exact IHfields].
  - apply HNode.
Qed.

Lemma foldR_pushElement (g : JsVal -> Node) (k : Node) (items : list JsVal) :
  List.Forall (fun item => elementFor item = Ok (g item)) items ->
  forall es,
    foldR (fun arr sub => n ← elementFor sub; pushElement n arr)
          (Property k (ArrayExpression es)) items
    = Ok (Property k (ArrayExpression (es ++ map g items))).
Proof.
  induction 1 as [| item items Hitem _ IH]; intros es; cbn [foldR map].
  - rewrite app_nil_r. reflexivity.
  - rewrite Hitem. cbn. rewrite IH, <- app_assoc. reflexivity.
Qed.
Lemma buildable_builds (v : JsVal) :
  buildable v = true ->
  (forall k, includes "inject" k = false ->
     propertyFor k v = Ok (Property (Identifier k) (valueNode v))) /\
  (forall fields, v = VObj fields -> forall ps,
     loopThroughObjects (ObjectExpression ps) v
     = Ok (ObjectExpression (ps ++ map entryNode fields))).
Proof.
  induction v as [s | n | b | r | items IH | fields IH | n]
    using JsVal_nested_ind; intros Hb.
  1-4: split; [| discriminate]; intros k Hk; unfold propertyFor; rewrite Hk;
       rewrite createIdentifierOrLiteral_scalar by reflexivity;
       cbn [mbind res_bind]; unfold createObjectWithSuppliedProperty, j_property;
       rewrite scalarNode_isExpression; reflexivity.
  - split; [| discriminate]. intros k Hk. unfold propertyFor. rewrite Hk.
    rewrite createArrayWithChildren_elements.
    rewrite (foldR_pushElement valueNode); [reflexivity |].
    cbn [buildable] in Hb. rewrite forallb_forall in Hb.
    rewrite List.Forall_forall in IH |- *. intros item Hin.
    specialize (Hb item Hin). specialize (IH item Hin).
    destruct item; try discriminate.
    + apply (createIdentifierOrLiteral_scalar (VStr s)). reflexivity.
    + destruct (IH Hb) as [_ Hloop]. cbn [elementFor].
      rewrite (Hloop _ eq_refl). reflexivity.
  - assert (Hloop : forall ps,
      loopThroughObjects (ObjectExpression ps) (VObj fields)
      = Ok (ObjectExpression (ps ++ map entryNode fields))).
    { intros ps. rewrite loop_VObj.
      assert (Hmap : mapR (fun kv => propertyFor kv.1 kv.2) fields
                     = Ok (map entryNode fields)).
      { cbn [buildable] in Hb. clear ps.
        induction IH as [| [k v] fields Hv _ IHfields]; [reflexivity |].
        cbn [forallb fst snd] in Hb, Hv. apply andb_prop in Hb as [Hkv Hb].
        cbn [mapR map fst snd]. rewrite (IHfields Hb).
        change (entryNode (k, v))
          with (if includes "inject" k then scalarNode v
                else Property (Identifier k) (valueNode v)).
        destruct (includes "inject" k) eqn:Hk.
        - unfold propertyFor. rewrite Hk.
          rewrite createIdentifierOrLiteral_scalar by assumption. reflexivity.
        - destruct (Hv Hkv) as [Hprop _]. rewrite (Hprop k Hk). reflexivity. }
      rewrite Hmap. reflexivity. }
    split.
    + intros k Hk. unfold propertyFor. rewrite Hk, Hloop. reflexivity.
    + intros fields' [= <-]. exact Hloop.
  - discriminate.
Qed.

Lemma scalarNode_bare v :
  isScalar v = true ->
  isProperty (scalarNode v) = false /\ isObjectExpression (scalarNode v) = false.
Proof.
  destruct v; try discriminate; intros _; try (split; reflexivity).
  cbn. unfold coerceScalar.
  repeat match goal with |- context [if ?c then _ else _] => destruct c end;
    split; reflexivity.
Qed.


(** C1, as the code has it: for a description whose keys do not contain
    the marker, [loopThroughObjects] on an empty object yields an object
    with one property per key, in the order of the keys, each with the
    key as an identifier and with the node of the value: a number or a
    boolean as that literal, ["true"] and ["false"] as booleans, a string
    that parses as a number (the empty string included) as that number,
    any other string as an identifier of that name, a mapping as an
    object built the same way, a sequence of strings and mappings as an
    array. *)
Theorem description_builds_object (d : Desc)
    (Hbuildable : buildable (VObj d) = true)
    (Hkeys : forallb (fun kv => negb (includes "inject" kv.1)) d = true) :
  exists props,
    loopThroughObjects (ObjectExpression []) (VObj d) = Ok (ObjectExpression props) /\
    map keyName props = map (fun kv => Some kv.1) d /\
    props = map (fun kv => Property (Identifier kv.1) (valueNode kv.2)) d.
Proof.
  assert (Hentries :
    map entryNode d = map (fun kv => Property (Identifier kv.1) (valueNode kv.2)) d).
  { clear Hbuildable. induction d as [| [k v] d IH]; [reflexivity |].
    cbn [forallb fst snd] in Hkeys. apply andb_prop in Hkeys as [Hk Hkeys].
    cbn [map]. rewrite (IH Hkeys). unfold entryNode. cbn [fst snd].
    apply negb_true_iff in Hk. rewrite Hk. reflexivity. }
  exists (map (fun kv => Property (Identifier kv.1) (valueNode kv.2)) d).
  split; [| split; [| reflexivity]].
  - destruct (buildable_builds _ Hbuildable) as [_ Hloop].
    rewrite (Hloop d eq_refl), Hentries. reflexivity.
  - rewrite map_map. reflexivity.
Qed.

(** ** Merging a sequence into an array *)

(** Whatever [hashtable] returns, the merge keeps every element that the
    array had and pushes one node per value that [hashtable] returned. *)
Lemma mergeArray_keeps_elements (hashtable : list JsVal -> list JsVal)
    (items : list JsVal) (k : Node) (es : list Node) (r : Node) :
  mergeArray hashtable items (Property k (ArrayExpression es)) = Ok r ->
  exists pushed,
    mapR createIdentifierOrLiteral (hashtable (flat_map elemValue es ++ items))
    = Ok pushed /\
    r = Property k (ArrayExpression (es ++ pushed)).
Proof.
  unfold mergeArray. generalize (hashtable (flat_map elemValue es ++ items)).
  intros l. revert es. induction l as [| v l IH]; intros es; cbn [foldR mapR].
  - intros [= <-]. exists []. rewrite app_nil_r. split; reflexivity.
  - destruct (createIdentifierOrLiteral v) as [n | e]; [| discriminate].
    cbn. intros Hrun. destruct (IH _ Hrun) as (pushed & Hmap & ->).
    exists (n :: pushed). rewrite Hmap, <- app_assoc. split; reflexivity.
Qed.

(** ** Further properties of the helpers *)

(** X1: [pathsToMemberExpression] returns [null] exactly for the empty
    list; for any other list of parts it builds a node that
    [memberExpressionToPathString] reads back as the parts, reversed and
    joined with dots. *)
Theorem member_expression_round_trip (paths : list string) :
  (pathsToMemberExpression paths = None <-> paths = []) /\
  (paths <> [] ->
   exists callee,
     pathsToMemberExpression paths = Some callee /\
     memberExpressionToPathString callee = Some (join_dot (rev paths))).
Proof.
  split.
  - split; [| intros ->; reflexivity].
    destruct paths as [| x l]; [reflexivity |]. intros Hnone.
    destruct (pathsToMemberExpression_name (x :: l)) as (c & Hc & _);
      [discriminate | congruence].
  - apply pathsToMemberExpression_name.
Qed.

(** X2: [createLiteral] and [createIdentifierOrLiteral] succeed on
    strings, numbers, booleans and regular expressions and raise the
    error of the builder on arrays, objects and nodes (for
    [createIdentifierOrLiteral], on those without a field [__paths]).
    [createLiteral] always returns a literal;
    [createIdentifierOrLiteral] returns a literal that is never a string
    literal, or the identifier named by the string. *)
Theorem scalar_builders_domain (v : JsVal) :
  (isScalar v = true ->
     (exists lit, createLiteral v = Ok (Literal lit)) /\
     ((exists lit, createIdentifierOrLiteral v = Ok (Literal lit) /\
                   forall s, lit <> LStr s) \/
      (exists s, v = VStr s /\ createIdentifierOrLiteral v = Ok (Identifier s)))) /\
  (isScalar v = false -> createLiteral v = Err BuilderError) /\
  (isScalar v = false -> carriesPaths v = false ->
     createIdentifierOrLiteral v = Err BuilderError).
Proof.
  split.
  - intros Hv. destruct v as [s | n | b | r | | |]; try discriminate.
    + destruct (scalar_coercion s) as [-> ->]. unfold coerceScalar.
      destruct (String.eqb s "true"); [split; [eauto | left; eexists; split; [reflexivity | discriminate]] |].
      destruct (String.eqb s "false"); [split; [eauto | left; eexists; split; [reflexivity | discriminate]] |].
      destruct (negb (isNaN (Number s))); [split; [eauto | left; eexists; split; [reflexivity | discriminate]] |].
      split; [eauto | right; eauto].
    + split; [eexists; reflexivity | left; eexists; split; [reflexivity | discriminate]].
    + split; [eexists; reflexivity | left; eexists; split; [reflexivity | discriminate]].
    + split; [eexists; reflexivity | left; eexists; split; [reflexivity | discriminate]].
  - split; intros Hv; destruct v; try discriminate; reflexivity.
Qed.

Lemma createProperty_not_scalar key v :
  isScalar v = false -> createProperty key v = Err BuilderError.
Proof.
  intros Hv. unfold createProperty.
  rewrite (createIdentifierOrLiteral_scalar (VStr key)) by reflexivity.
  cbn [mbind res_bind].
  destruct v; try discriminate; reflexivity.
Qed.

(** X3: when the value of some option is an array, an object or a node,
    [createOrUpdatePluginByName] raises the error of the builder, whatever
    the plugins array holds. *)
Theorem nested_option_is_rejected (root : Node) (name : string) (options : Desc) :
  existsb (fun kv => negb (isScalar kv.2)) options = true ->
  createOrUpdatePluginByName root name (Some options) = Err BuilderError.
Proof.
  intros Hex. unfold createOrUpdatePluginByName.
  assert (Hmap : mapR (fun kv => createProperty kv.1 kv.2) options
                 = Err BuilderError).
  { induction options as [| [k v] options IH]; [discriminate |].
    cbn [existsb mapR fst snd] in *. destruct (isScalar v) eqn:Hv.
    - rewrite createProperty_scalar by assumption. cbn [negb orb] in Hex.
      cbn [mbind res_bind]. rewrite (IH Hex). reflexivity.
    - rewrite createProperty_not_scalar by assumption. reflexivity. }
  rewrite Hmap. reflexivity.
Qed.

Lemma Node_children_ind (P : Node -> Prop) :
  (forall n, List.Forall P (children n) -> P n) -> forall n, P n.
Proof.
  intros Hstep. fix IH 1. intros n. apply Hstep.
  destruct n as [v | s | k v | ps | es | c args | o p]; cbn [children].
  - constructor.
  - constructor.
  - repeat constructor; apply IH.
  - induction ps as [| a ps IHps]; constructor; [apply IH | exact IHps].
  - induction es as [| a es IHes]; constructor; [apply IH | exact IHes].
  - constructor; [apply IH |].
    induction args as [| a args IHargs]; constructor; [apply IH | exact IHargs].
  - repeat constructor; apply IH.
Qed.

Lemma in_visitAll sel (cs : list Node) : forall i p,
  In p (visitAll sel i cs) <->
  exists j c q, p = (i + j) :: q /\ cs !! j = Some c /\ In q (visit sel c).
Proof.
  induction cs as [| c cs IH]; intros i p; cbn [visitAll].
  - split; [intros [] | intros (j & c & q & _ & H & _); discriminate].
  - rewrite in_app_iff, in_map_iff, IH. split.
    + intros [(q & <- & Hq) | (j & c' & q & -> & Hj & Hq)].
      * exists 0, c, q. rewrite Nat.add_0_r. auto.
      * exists (S j), c', q. split; [f_equal; lia | auto].
    + intros (j & c' & q & -> & Hj & Hq). destruct j as [| j].
      * left. exists q. rewrite Nat.add_0_r. cbn in Hj. injection Hj as <-. auto.
      * right. exists j, c', q. split; [f_equal; lia | auto].
Qed.

Lemma in_find sel (n : Node) : forall p,
  In p (find sel n) <->
  p <> [] /\ exists m, nodeAt p n = Some m /\ sel m = true.
Proof.
  induction n as [n IH] using Node_children_ind. intros p.
  rewrite find_children, in_visitAll. rewrite List.Forall_forall in IH.
  split.
  - intros (j & c & q & -> & Hj & Hq). split; [discriminate |].
    cbn [Nat.add nodeAt]. rewrite Hj. cbn.
    unfold visit in Hq. apply in_app_iff in Hq as [Hq | Hq].
    + destruct (sel c) eqn:Hc; [| destruct Hq].
      destruct Hq as [<- | []]. exists c. auto.
    + apply IH in Hq as [_ Hq]; [exact Hq |].
      apply list_elem_of_In. eapply list_elem_of_lookup_2. exact Hj.
  - intros [Hne (m & Hm & Hsel)]. destruct p as [| j q]; [congruence |].
    cbn [nodeAt] in Hm. destruct (children n !! j) as [c |] eqn:Hj; [| discriminate].
    cbn in Hm. exists j, c, q. split; [reflexivity |]. split; [exact Hj |].
    unfold visit. apply in_app_iff. destruct q as [| k q'].
    + left. cbn in Hm. injection Hm as ->. rewrite Hsel. left. reflexivity.
    + right. apply IH.
      * apply list_elem_of_In. eapply list_elem_of_lookup_2. exact Hj.
      * split; [discriminate | eauto].
Qed.

Lemma withChildren_children (n : Node) : withChildren n (children n) = n.
Proof. destruct n; reflexivity. Qed.

Lemma modifyAt_id (f : Node -> res Node) (Hf : forall x, f x = Ok x) :
  forall p n m, nodeAt p n = Some m -> modifyAt p f n = Ok n.
Proof.
  induction p as [| i p IH]; intros n m Hm; cbn [modifyAt]; [apply Hf |].
  cbn [nodeAt] in Hm. destruct (children n !! i) as [c |] eqn:Hi; [| discriminate].
  cbn in Hm. rewrite (IH _ _ Hm). cbn.
  rewrite list_insert_id by exact Hi. rewrite withChildren_children. reflexivity.
Qed.

Lemma forEach_id (f : Node -> res Node) (Hf : forall x, f x = Ok x) sel (root : Node) :
  foldR (fun root p => modifyAt p f root) root (find sel root) = Ok root.
Proof.
  assert (H : forall l, (forall p, In p l -> exists m, nodeAt p root = Some m) ->
                        foldR (fun root p => modifyAt p f root) root l = Ok root).
  { induction l as [| p l IH]; intros Hl; [reflexivity |]. cbn [foldR].
    destruct (Hl p (or_introl eq_refl)) as (m & Hm).
    rewrite (modifyAt_id f Hf _ _ _ Hm). cbn. apply IH.
    intros q Hq. apply Hl. right. exact Hq. }
  apply H. intros p Hp. apply in_find in Hp as [_ (m & Hm & _)]. eauto.
Qed.

Lemma updatePluginCall_no_options (call : Node) : updatePluginCall None call = Ok call.
Proof. destruct call; reflexivity. Qed.

(** X4: without options, [createOrUpdatePluginByName] leaves the tree as
    it is when a call for the name is found, and otherwise appends a call
    without arguments whose callee reads as the name; a second call with
    the same name changes nothing. *)
Theorem plugin_without_options_settles (root : Node) (name : string) (r : Node) :
  createOrUpdatePluginByName root name None = Ok r ->
  (findPluginsByName root [name] <> [] -> r = root) /\
  (findPluginsByName root [name] = [] ->
     exists elements callee,
       root = ArrayExpression elements /\
       memberExpressionToPathString callee = Some name /\
       r = ArrayExpression (elements ++ [NewExpression callee []])) /\
  createOrUpdatePluginByName r name None = Ok r.
Proof.
  unfold createOrUpdatePluginByName at 1. cbn [mbind res_bind].
  unfold findPluginsByName.
  destruct (find (isPluginCall [name]) root) as [| p l] eqn:Hfind.
  - destruct (callee_of_name name) as (callee & Hc & Hn). rewrite Hc.
    destruct root as [| | | | elements | |]; try discriminate.
    intros [= <-]. split; [congruence |]. split; [eauto |].
    unfold createOrUpdatePluginByName. cbn [mbind res_bind].
    unfold findPluginsByName.
    destruct (find (isPluginCall [name])
                (ArrayExpression (elements ++ [NewExpression callee []])))
      as [| q l'] eqn:Hfind'.
    + exfalso. rewrite find_children in Hfind'. cbn [children] in Hfind'.
      rewrite visitAll_app in Hfind'. apply app_eq_nil in Hfind' as [_ H].
      cbn [visitAll] in H. unfold visit in H.
      assert (Hsel : isPluginCall [name] (NewExpression callee []) = true).
      { cbn. rewrite Hn, String.eqb_refl. reflexivity. }
      rewrite Hsel in H. discriminate.
    + rewrite <- Hfind'. apply forEach_id. apply updatePluginCall_no_options.
  - rewrite <- Hfind. rewrite forEach_id by apply updatePluginCall_no_options.
    intros [= <-]. split; [reflexivity |]. split; [rewrite Hfind; discriminate |].
    unfold createOrUpdatePluginByName. cbn [mbind res_bind].
    unfold findPluginsByName. rewrite Hfind. rewrite <- Hfind.
    apply forEach_id. apply updatePluginCall_no_options.
Qed.

(** X5: [findPluginsByName] reports exactly the paths of the strict
    descendants that are constructor calls whose callee reads as one of
    the names. *)
Theorem plugins_found_exactly (node : Node) (names : list string) (p : Path) :
  In p (findPluginsByName node names) <->
  p <> [] /\
  exists callee args name,
    nodeAt p node = Some (NewExpression callee args) /\
    In name names /\ memberExpressionToPathString callee = Some name.
Proof.
  unfold findPluginsByName. rewrite in_find. split.
  - intros [Hne (m & Hm & Hsel)]. split; [exact Hne |].
    destruct m as [| | | | | callee args |]; try discriminate.
    cbn in Hsel. apply existsb_exists in Hsel as (name & Hin & Hname).
    destruct (memberExpressionToPathString callee) as [s |] eqn:Hs; [| discriminate].
    apply String.eqb_eq in Hname as ->. eauto 8.
  - intros [Hne (callee & args & name & Hm & Hin & Hname)]. split; [exact Hne |].
    eexists. split; [exact Hm |]. cbn. apply existsb_exists.
    exists name. rewrite Hname, String.eqb_refl. auto.
Qed.

(** X6: [findRootNodesByName] reports exactly the paths of the strict
    descendants that are properties whose key is the identifier
    [propName]. *)
Theorem root_nodes_found_exactly (node : Node) (propName : string) (p : Path) :
  In p (findRootNodesByName node propName) <->
  p <> [] /\
  exists value, nodeAt p node = Some (Property (Identifier propName) value).
Proof.
  unfold findRootNodesByName. rewrite in_find. split.
  - intros [Hne (m & Hm & Hsel)]. split; [exact Hne |].
    unfold hasKey in Hsel. destruct m as [| | k v | | | |]; try discriminate.
    cbn in Hsel. destruct k; try discriminate. cbn in Hsel.
    apply String.eqb_eq in Hsel as ->. eauto.
  - intros [Hne (value & Hm)]. split; [exact Hne |]. eexists. split; [exact Hm |].
    unfold hasKey. cbn. apply String.eqb_refl.
Qed.

Lemma foldR_invariant {A St} (Inv : St -> Prop) (f : St -> A -> res St) (l : list A) :
  (forall s a s', In a l -> Inv s -> f s a = Ok s' -> Inv s') ->
  forall s r, Inv s -> foldR f s l = Ok r -> Inv r.
Proof.
  induction l as [| a l IH]; intros Hstep s r Hs; cbn [foldR].
  - intros [= <-]. exact Hs.
  - destruct (f s a) as [s' |] eqn:Hf; [| discriminate]. cbn.
    apply IH.
    + intros s0 a0 s0' Hin. apply Hstep. right. exact Hin.
    + eapply Hstep; [left; reflexivity | exact Hs | exact Hf].
Qed.

Lemma visitAll_nonempty sel (cs : list Node) : forall i p,
  In p (visitAll sel i cs) -> exists j q, p = j :: q.
Proof.
  induction cs as [| c cs IH]; intros i p Hin; [destruct Hin |].
  cbn [visitAll] in Hin. apply in_app_iff in Hin as [Hin | Hin].
  - apply in_map_iff in Hin as (q & <- & _). eauto.
  - eapply IH. exact Hin.
Qed.

(** X7: [createOrUpdatePluginByName] never removes an element of the
    plugins array: the array has one element more when no call for the
    name was found, and as many elements as before otherwise. *)
Theorem plugins_array_grows_by_at_most_one (es : list Node) (name : string)
    (options : option Desc) (r : Node) :
  createOrUpdatePluginByName (ArrayExpression es) name options = Ok r ->
  exists es',
    r = ArrayExpression es' /\
    length es' = match findPluginsByName (ArrayExpression es) [name] with
                 | [] => S (length es)
                 | _ => length es
                 end.
Proof.
  unfold createOrUpdatePluginByName.
  match goal with |- mbind _ ?m = _ -> _ => destruct m as [optionsProps |] end;
    [| discriminate].
  cbn [mbind res_bind]. unfold findPluginsByName.
  destruct (find (isPluginCall [name]) (ArrayExpression es)) as [| p l] eqn:Hfind.
  - destruct (pathsToMemberExpression _); [| discriminate].
    intros [= <-]. eexists. split; [reflexivity |].
    rewrite length_app. cbn. lia.
  - rewrite <- Hfind.
    apply (foldR_invariant
             (fun s => exists es', s = ArrayExpression es' /\ length es' = length es));
      [| eauto].
    intros s q s' Hin (es' & -> & Hlen).
    rewrite find_children in Hin. apply visitAll_nonempty in Hin as (i & q' & ->).
    cbn [modifyAt children].
    destruct (es' !! i); [| discriminate].
    destruct (modifyAt q' _ n) as [c' |]; [| discriminate].
    cbn. intros [= <-]. eexists. split; [reflexivity |].
    rewrite length_insert. exact Hlen.
Qed.

Lemma safeTraverse_app {V : Type} `{JsObject V} (p1 p2 : list string) : forall obj : V,
  safeTraverse obj (p1 ++ p2) = safeTraverse (safeTraverse obj p1) p2.
Proof.
  induction p1 as [| k p1 IH]; intros obj; [reflexivity |].
  cbn [app safeTraverse]. destruct (js_truthy obj); [apply IH |].
  destruct p2 as [| k2 p2]; [reflexivity |].
  cbn [safeTraverse]. rewrite js_null_falsy. reflexivity.
Qed.

(** X8: [safeTraverse] along two lists of keys, one after the other, is
    [safeTraverse] along their concatenation; it returns [null] as soon
    as a key is to be read from a falsy value, and the field itself for a
    single key of a truthy value. *)
Theorem safeTraverse_composes_and_guards {V : Type} `{JsObject V} :
  (forall (obj : V) (p1 p2 : list string),
      safeTraverse obj (p1 ++ p2) = safeTraverse (safeTraverse obj p1) p2) /\
  (forall (obj : V) (key : string) (rest : list string),
      js_truthy obj = false -> safeTraverse obj (key :: rest) = js_null) /\
  (forall (obj : V) (key : string),
      js_truthy obj = true -> safeTraverse obj [key] = js_get obj key).
Proof.
  split; [| split].
  - intros obj p1 p2. apply safeTraverse_app.
  - intros obj key rest Hobj. cbn. rewrite Hobj. reflexivity.
  - intros obj key Hobj. cbn. rewrite Hobj. reflexivity.
Qed.

(** X9: [safeTraverse(n, ["key", "name"]) === name], the filter of line
    536, holds exactly for the properties whose key is the identifier
    [name]; for an element that is not a property the traversal gives
    [null] and raises nothing. *)
Theorem named_property_filter (n : Node) (name : string) :
  (safeTraverse (FNode n) ["key"; "name"] = FString name <-> hasKey name n = true) /\
  (isProperty n = false -> safeTraverse (FNode n) ["key"; "name"] = FNull).
Proof.
  split.
  - unfold hasKey. destruct n as [| | k v | | | |]; cbn; try (split; discriminate).
    destruct k; cbn; try (split; discriminate).
    split.
    + intros [= ->]. apply String.eqb_refl.
    + intros ->%String.eqb_eq. reflexivity.
  - destruct n; try discriminate; reflexivity.
Qed.

Lemma hasKey_among (keyNames : list string) (k v : Node) :
  existsb (fun key => hasKey key (Property k v)) keyNames
  = match nameOf k with
    | Some name => existsb (String.eqb name) keyNames
    | None => false
    end.
Proof.
  unfold hasKey. cbn [keyName]. destruct (nameOf k) as [s |]; [reflexivity |].
  induction keyNames as [| a l IHl]; [reflexivity | cbn; exact IHl].
Qed.

(** X10: [findObjWithOneOfKeys] is [true] exactly when some property of
    the object has a key named by one of [keyNames], and raises a
    [TypeError] when an element of [properties] is not a property. *)
Theorem one_of_keys_found (ps : list Node) (keyNames : list string) :
  findObjWithOneOfKeys (ObjectExpression ps) keyNames
  = if forallb isProperty ps
    then Ok (existsb (fun p => existsb (fun key => hasKey key p) keyNames) ps)
    else Err TypeError.
Proof.
  unfold findObjWithOneOfKeys.
  assert (H : forall acc,
    foldR (fun predicate prop =>
             match prop with
             | Property key _ =>
                 Ok (match nameOf key with
                     | Some name => existsb (String.eqb name) keyNames
                     | None => false
                     end || predicate)
             | _ => Err TypeError
             end) acc ps
    = if forallb isProperty ps
      then Ok (existsb (fun p => existsb (fun key => hasKey key p) keyNames) ps || acc)
      else Err TypeError).
  { induction ps as [| p ps IH]; intros acc; [reflexivity |].
    cbn [foldR forallb existsb].
    destruct p as [| | k v | | | |]; try reflexivity.
    cbn [mbind res_bind isProperty andb]. rewrite IH.
    destruct (forallb isProperty ps); [| reflexivity]. f_equal.
    pose proof (hasKey_among keyNames k v) as Hk.
    rewrite Hk.
    destruct (match nameOf k with Some _ => _ | None => _ end),
             (existsb _ ps), acc; reflexivity. }
  rewrite H. rewrite orb_false_r. reflexivity.
Qed.

Lemma hasKey_Property key k v v' :
  hasKey key (Property k v) = hasKey key (Property k v').
Proof. reflexivity. Qed.

Lemma assignFirst_none key value (ps : list Node) :
  assignFirst key value ps = None <-> existsb (hasKey key) ps = false.
Proof.
  induction ps as [| p ps IH]; cbn [assignFirst existsb]; [tauto |].
  destruct (hasKey key p) eqn:Hp.
  - unfold hasKey in Hp. destruct p; try discriminate. cbn. split; discriminate.
  - cbn. destruct (assignFirst key value ps); cbn; split; intros H;
      try discriminate; try reflexivity; apply IH in H; try discriminate; exact H.
Qed.

Lemma assignFirst_some key value (ps ps' : list Node) :
  assignFirst key value ps = Some ps' ->
  valueOfKey key ps' = Some value /\
  length ps' = length ps /\
  forallb isProperty ps' = forallb isProperty ps /\
  existsb (hasKey key) ps = true /\
  (forall key', key' <> key -> valueOfKey key' ps' = valueOfKey key' ps) /\
  (forall value', assignFirst key value' ps' = assignFirst key value' ps).
Proof.
  revert ps'. induction ps as [| p ps IH]; intros ps'; cbn [assignFirst];
    [discriminate |].
  destruct (hasKey key p) eqn:Hp.
  - destruct p as [| | k v | | | |]; try discriminate. intros [= <-].
    cbn [valueOfKey length forallb existsb assignFirst isProperty].
    rewrite (hasKey_Property key k value v), Hp.
    repeat split; try reflexivity.
    intros key' Hne. rewrite (hasKey_Property key' k value v).
    destruct (hasKey key' (Property k v)) eqn:Hp'; [| reflexivity].
    exfalso. unfold hasKey in Hp, Hp'. cbn [keyName] in Hp, Hp'.
    destruct (nameOf k); [| discriminate].
    apply String.eqb_eq in Hp, Hp'. congruence.
  - destruct (assignFirst key value ps) as [l |]; [| discriminate].
    cbn. intros [= <-]. destruct (IH l eq_refl) as (H1 & H2 & H3 & H4 & H5 & H6).
    cbn [valueOfKey length forallb existsb]. rewrite Hp.
    rewrite H1, H2, H3, H4. repeat split; try reflexivity.
    + intros key' Hne. cbn [valueOfKey]. rewrite (H5 key' Hne). reflexivity.
    + intros value'. cbn [assignFirst]. rewrite Hp, H6. reflexivity.
Qed.

Lemma valueOfKey_snoc key key' value (ps : list Node) :
  valueOfKey key' (ps ++ [Property (Identifier key) value])
  = match valueOfKey key' ps with
    | Some v => Some v
    | None => if existsb (hasKey key') ps then None
              else if String.eqb key key' then Some value else None
    end.
Proof.
  induction ps as [| p ps IH]; cbn [app valueOfKey existsb].
  - unfold hasKey. cbn. destruct (String.eqb key key'); reflexivity.
  - destruct (hasKey key' p) eqn:Hp.
    + unfold hasKey in Hp. destruct p; try discriminate. reflexivity.
    + cbn. exact IH.
Qed.

Lemma valueOfKey_none key (ps : list Node) :
  existsb (hasKey key) ps = false -> valueOfKey key ps = None.
Proof.
  induction ps as [| p ps IH]; [reflexivity |]. cbn [existsb valueOfKey].
  intros H. apply orb_false_elim in H as [-> H]. exact (IH H).
Qed.

(** X11: after [checkIfExistsAndAddValue] the first property with the
    key holds the value, the value under every other key is as before,
    and the object has one property more exactly when no property had
    the key. *)
Theorem property_set_then_read (ps : list Node) (key : string) (n r : Node) :
  checkIfExistsAndAddValue (ObjectExpression ps) key (VNode n) = Ok r ->
  exists ps',
    r = ObjectExpression ps' /\
    valueOfKey key ps' = Some n /\
    (forall key', key' <> key -> valueOfKey key' ps' = valueOfKey key' ps) /\
    length ps' = (if existsb (hasKey key) ps then length ps else S (length ps)).
Proof.
  unfold checkIfExistsAndAddValue.
  destruct (forallb isProperty ps); [| discriminate].
  destruct (assignFirst key n ps) as [ps' |] eqn:Ha.
  - intros [= <-]. exists ps'.
    destruct (assignFirst_some _ _ _ _ Ha) as (H1 & H2 & _ & H4 & H5 & _).
    rewrite H4. auto.
  - apply assignFirst_none in Ha. unfold j_property. cbn [isExpression andb].
    destruct (isExpression n); [| discriminate]. cbn. intros [= <-].
    eexists. split; [reflexivity |]. rewrite Ha.
    split; [| split].
    + rewrite valueOfKey_snoc, valueOfKey_none, Ha, String.eqb_refl by assumption.
      reflexivity.
    + intros key' Hne. rewrite valueOfKey_snoc.
      destruct (valueOfKey key' ps); [reflexivity |].
      destruct (existsb (hasKey key') ps); [reflexivity |].
      destruct (String.eqb_spec key key'); [congruence | reflexivity].
    + rewrite length_app. cbn. lia.
Qed.

(** X12: of two calls of [checkIfExistsAndAddValue] with the same key
    the second decides: the result is that of the second call alone, and
    repeating a call changes nothing. *)
Theorem last_value_wins (ps : list Node) (key : string) (n1 n2 r1 : Node) :
  checkIfExistsAndAddValue (ObjectExpression ps) key (VNode n1) = Ok r1 ->
  isExpression n2 = true ->
  checkIfExistsAndAddValue r1 key (VNode n2)
  = checkIfExistsAndAddValue (ObjectExpression ps) key (VNode n2) /\
  checkIfExistsAndAddValue r1 key (VNode n1) = Ok r1.
Proof.
  unfold checkIfExistsAndAddValue at 1.
  destruct (forallb isProperty ps) eqn:Hprops; [| discriminate].
  destruct (assignFirst key n1 ps) as [ps' |] eqn:Ha.
  - intros [= <-] _.
    destruct (assignFirst_some _ _ _ _ Ha) as (_ & _ & H3 & H4 & _ & H6).
    unfold checkIfExistsAndAddValue. rewrite H3, Hprops, !H6, Ha.
    destruct (assignFirst key n2 ps) eqn:Ha2; [auto |].
    apply assignFirst_none in Ha2. congruence.
  - pose proof Ha as Hnone. apply assignFirst_none in Hnone.
    unfold j_property. cbn [isExpression andb].
    destruct (isExpression n1); [| discriminate]. cbn. intros [= <-] Hn2.
    unfold checkIfExistsAndAddValue.
    rewrite forallb_app, Hprops. cbn [forallb isProperty andb].
    rewrite !assignFirst_first by (assumption || reflexivity).
    assert (Ha2 : assignFirst key n2 ps = None) by (apply assignFirst_none; assumption).
    rewrite Ha2. unfold j_property. cbn [isExpression andb]. rewrite Hn2. auto.
Qed.

Lemma propsNamed_nil name (ps : list Node) : forall i,
  existsb (hasKey name) ps = false -> propsNamed name i ps = [].
Proof.
  induction ps as [| p ps IH]; intros i; [reflexivity |].
  cbn [existsb propsNamed]. intros H. apply orb_false_elim in H as [-> H].
  exact (IH _ H).
Qed.

(** X13: [pushObjectKeys] returns the target as it is, whatever the
    description, when no property of the target is named [name]; it
    raises a [TypeError] when the target is not an object. *)
Theorem missing_target_is_left_alone hashtable (pv : Node) (d : JsVal)
    (name : string) (reassign : bool) :
  (forall ps, pv = ObjectExpression ps -> existsb (hasKey name) ps = false ->
     pushObjectKeys hashtable pv d name reassign = Ok pv) /\
  (isObjectExpression pv = false ->
     pushObjectKeys hashtable pv d name reassign = Err TypeError).
Proof.
  split.
  - intros ps -> Hnone. destruct d; cbn [pushObjectKeys];
      rewrite propsNamed_nil by assumption; reflexivity.
  - intros Hpv. destruct pv; try discriminate; destruct d; reflexivity.
Qed.

(** X14: [loopThroughObjects] with a description made of two parts is
    [loopThroughObjects] with the first part followed by
    [loopThroughObjects] with the second, on any target. *)
Theorem description_parts_compose (p : Node) (d1 d2 : Desc) :
  loopThroughObjects p (VObj (d1 ++ d2))
  = (r ← loopThroughObjects p (VObj d1); loopThroughObjects r (VObj d2)).
Proof.
  revert p. induction d1 as [| [k v] d1 IH]; intros p; [reflexivity |].
  cbn [app loopThroughObjects] in IH |- *.
  match goal with |- mbind _ ?m = _ => destruct m as [p' | e] end;
    [| reflexivity].
  cbn [mbind res_bind]. apply IH.
Qed.

Lemma loop_VArr (p : Node) (items : list JsVal) :
  loopThroughObjects p (VArr items) = loopThroughObjects p (VObj (indexed 0 items)).
Proof.
  cbn [loopThroughObjects]. generalize 0. revert p.
  induction items as [| v items IH]; intros p i; [reflexivity |].
  cbn [indexed]. 
  match goal with |- mbind _ ?m = _ => destruct m as [p' | e] end;
    [| reflexivity].
  cbn [mbind res_bind]. apply IH.
Qed.

Lemma mapR_length {A B} (f : A -> res B) (l : list A) (r : list B) :
  mapR f l = Ok r -> length r = length l.
Proof.
  revert r. induction l as [| a l IH]; intros r; cbn [mapR].
  - intros [= <-]. reflexivity.
  - destruct (f a); [| discriminate]. cbn.
    destruct (mapR f l) as [bs |]; [| discriminate]. cbn. intros [= <-].
    cbn. f_equal. apply IH. reflexivity.
Qed.

Lemma indexed_length items : forall i, length (indexed i items) = length items.
Proof. induction items as [| v items IH]; intros i; cbn; [| rewrite IH]; reflexivity. Qed.

Lemma loop_appends (ps : list Node) (obj : JsVal) (r : Node) :
  loopThroughObjects (ObjectExpression ps) obj = Ok r ->
  exists nodes,
    r = ObjectExpression (ps ++ nodes) /\
    (forall qs, loopThroughObjects (ObjectExpression qs) obj
                = Ok (ObjectExpression (qs ++ nodes))) /\
    (forall d, obj = VObj d -> length nodes = length d) /\
    (forall items, obj = VArr items -> length nodes = length items).
Proof.
  assert (Hobj : forall d r,
    loopThroughObjects (ObjectExpression ps) (VObj d) = Ok r ->
    exists nodes,
      r = ObjectExpression (ps ++ nodes) /\
      (forall qs, loopThroughObjects (ObjectExpression qs) (VObj d)
                  = Ok (ObjectExpression (qs ++ nodes))) /\
      length nodes = length d).
  { intros d r'. rewrite loop_VObj.
    destruct (mapR _ d) as [nodes |] eqn:Hmap; [| discriminate].
    cbn [mbind res_bind]. intros [= <-]. exists nodes. split; [reflexivity |]. split.
    - intros qs. rewrite loop_VObj, Hmap. reflexivity.
    - eapply mapR_length. exact Hmap. }
  destruct obj as [s | n | b | x | items | d | n]; try discriminate.
  1-3: intros [= <-]; exists []; rewrite app_nil_r;
       repeat split; try discriminate;
       intros qs; rewrite app_nil_r; reflexivity.
  - rewrite loop_VArr. intros Hrun.
    destruct (Hobj _ _ Hrun) as (nodes & -> & Hany & Hlen).
    exists nodes. split; [reflexivity |]. split; [| split].
    + intros qs. rewrite loop_VArr. apply Hany.
    + discriminate.
    + intros items' [= <-]. rewrite Hlen. apply indexed_length.
  - intros Hrun. destruct (Hobj _ _ Hrun) as (nodes & -> & Hany & Hlen).
    exists nodes. split; [reflexivity |]. split; [exact Hany |]. split.
    + intros d' [= <-]. exact Hlen.
    + discriminate.
Qed.

(** X16: [loopThroughObjects] only appends: the properties of the target
    stay in front, the appended nodes do not depend on them, and there is
    one appended node per key of the object or element of the array. *)
Theorem existing_properties_are_kept (ps : list Node) (obj : JsVal) (r : Node) :
  loopThroughObjects (ObjectExpression ps) obj = Ok r ->
  exists nodes,
    r = ObjectExpression (ps ++ nodes) /\
    (forall qs, loopThroughObjects (ObjectExpression qs) obj
                = Ok (ObjectExpression (qs ++ nodes))) /\
    (forall d, obj = VObj d -> length nodes = length d) /\
    (forall items, obj = VArr items -> length nodes = length items).
Proof. apply loop_appends. Qed.

Lemma elementFor_shape item e : elementFor item = Ok e -> elementShape item e.
Proof.
  destruct item as [s | n | b | x | items | d | n]; cbn [elementFor elementShape].
  - destruct (scalar_coercion s) as [_ ->]. congruence.
  - cbn. congruence.
  - cbn. congruence.
  - cbn. congruence.
  - intros H. apply loop_appends in H as (nodes & -> & _). reflexivity.
  - intros H. apply loop_appends in H as (nodes & -> & _). reflexivity.
  - discriminate.
Qed.

Lemma foldR_pushElement_inv (k : Node) (items : list JsVal) : forall es r,
  foldR (fun arr sub => n ← elementFor sub; pushElement n arr)
        (Property k (ArrayExpression es)) items = Ok r ->
  exists new, r = Property k (ArrayExpression (es ++ new)) /\
              Forall2 elementShape items new.
Proof.
  induction items as [| item items IH]; intros es r; cbn [foldR].
  - intros [= <-]. exists []. rewrite app_nil_r. split; [reflexivity | constructor].
  - destruct (elementFor item) as [e |] eqn:He; [| discriminate].
    cbn. intros Hrun. destruct (IH _ _ Hrun) as (new & -> & Hnew).
    exists (e :: new). rewrite <- app_assoc. split; [reflexivity |].
    constructor; [apply elementFor_shape; exact He | exact Hnew].
Qed.

(** X17: [createArrayWithChildren] with [shouldDropKeys] builds a
    property [key: [...]] with one element per item, in order: the
    coerced scalar for a string, an empty object for a number, a boolean
    or a regular expression, an object for an array or a mapping; it
    raises a [TypeError] when [subProps] is not an array. *)
Theorem array_children_shape (key : string) (subProps : JsVal) :
  (forall items r,
      subProps = VArr items ->
      createArrayWithChildren key subProps true = Ok r ->
      exists es,
        r = Property (Identifier key) (ArrayExpression es) /\
        Forall2 elementShape items es) /\
  ((forall items, subProps <> VArr items) ->
   createArrayWithChildren key subProps true = Err TypeError).
Proof.
  split.
  - intros items r -> Hrun. rewrite createArrayWithChildren_elements in Hrun.
    apply foldR_pushElement_inv in Hrun as (new & -> & Hnew). eauto.
  - intros Hne. destruct subProps; try reflexivity. exfalso. eapply Hne. reflexivity.
Qed.

Lemma modifyAt_names (f : Node -> res Node)
    (Hf : forall x y, f x = Ok y -> keyName y = keyName x /\ nameOf y = nameOf x) :
  forall p n n', modifyAt p f n = Ok n' ->
                 keyName n' = keyName n /\ nameOf n' = nameOf n.
Proof.
  induction p as [| i p IH]; intros n n'; cbn [modifyAt]; [apply Hf |].
  destruct (children n !! i) as [c |] eqn:Hi; [| discriminate].
  destruct (modifyAt p f c) as [c' |] eqn:Hc; [| discriminate].
  cbn. intros [= <-]. destruct (IH _ _ Hc) as [_ Hname].
  destruct n as [| | k v | | | |]; cbn [children] in *; try discriminate;
    try (split; reflexivity).
  - destruct i as [| [| i]]; cbn in Hi |- *; try discriminate.
    + injection Hi as <-. split; [exact Hname | reflexivity].
    + split; reflexivity.
  - destruct i as [| i]; cbn; split; reflexivity.
  - destruct i as [| [| i]]; cbn in Hi |- *; try discriminate; split; reflexivity.
Qed.

Lemma sameKeys_modifyAt (f : Node -> res Node) ps (i : nat) (p : Path) (s r : Node) :
  (forall c c', modifyAt p f c = Ok c' -> keyName c' = keyName c) ->
  sameKeys ps s -> modifyAt (i :: p) f s = Ok r -> sameKeys ps r.
Proof.
  intros Hf (ps' & -> & Hkeys). cbn [modifyAt children].
  destruct (ps' !! i) as [c |] eqn:Hi; [| discriminate].
  destruct (modifyAt p f c) as [c' |] eqn:Hc; [| discriminate].
  cbn. intros [= <-]. eexists. split; [reflexivity |].
  rewrite list_fmap_insert, (Hf _ _ Hc), <- Hkeys.
  apply list_insert_id. rewrite list_lookup_fmap, Hi. reflexivity.
Qed.

Lemma sameKeys_inProp (g : Node -> res Node) ps (i : nat) (s r : Node) :
  sameKeys ps s -> inProp i g s = Ok r -> sameKeys ps r.
Proof.
  unfold inProp. apply sameKeys_modifyAt. intros c c'. cbn [modifyAt].
  destruct (children c !! 1) as [v |] eqn:Hv; [| discriminate].
  destruct (g v) as [v' |]; [| discriminate]. cbn. intros [= <-].
  destruct c as [| | k x | [| a [| b l]] | [| a [| b l]] | callee [| a l] |];
    cbn in Hv |- *; try discriminate; reflexivity.
Qed.

Lemma mergeArray_names hashtable items (x y : Node) :
  mergeArray hashtable items x = Ok y ->
  keyName y = keyName x /\ nameOf y = nameOf x.
Proof.
  destruct x as [| | k v | | | |]; try discriminate.
  destruct v; try discriminate. intros H.
  apply mergeArray_keeps_elements in H as (pushed & _ & ->). split; reflexivity.
Qed.

Lemma sameKeys_merge hashtable items sel ps (s r : Node) :
  sameKeys ps s ->
  foldR (fun pv property => modifyAt property (mergeArray hashtable items) pv)
        s (find sel s) = Ok r ->
  sameKeys ps r.
Proof.
  intros Hs. apply foldR_invariant; [| exact Hs].
  intros s0 p s0' Hin Hs0 Hrun.
  rewrite find_children in Hin. apply visitAll_nonempty in Hin as Hp.
  destruct Hp as (i & q & ->).
  eapply sameKeys_modifyAt; [| exact Hs0 | exact Hrun].
  intros c c' Hc. eapply modifyAt_names; [| exact Hc].
  intros x y. apply mergeArray_names.
Qed.

(** X18: [pushObjectKeys] never adds, removes or renames a property of
    the target itself: the key names of the properties of the target are
    the same after the call, in the same order. *)
Theorem target_keys_are_kept hashtable (ps : list Node) (d : JsVal)
    (name : string) (reassign : bool) (r : Node) :
  pushObjectKeys hashtable (ObjectExpression ps) d name reassign = Ok r ->
  exists ps', r = ObjectExpression ps' /\ map keyName ps' = map keyName ps.
Proof.
  destruct d as [| | | | | fields |]; cbn [pushObjectKeys];
    (apply (foldR_invariant (sameKeys ps)); [| exists ps; auto]);
    intros st prop st' _ Hs; try discriminate.
  revert st Hs. induction fields as [| [k v] fields IH]; intros st Hs.
  - intros [= <-]. exact Hs.
  - match goal with |- mbind _ ?m = _ -> _ => destruct m as [s1 |] eqn:Hstep end;
      [| discriminate].
    cbn [mbind res_bind]. apply IH. clear IH.
    destruct (includes "inject" k).
    + destruct reassign; eapply sameKeys_inProp; eauto.
    + destruct v; try (eapply sameKeys_inProp; eassumption).
      * destruct reassign.
        -- eapply sameKeys_merge; eassumption.
        -- destruct (createArrayWithChildren k (VArr items) true); [| discriminate].
           cbn [mbind res_bind] in Hstep. eapply sameKeys_inProp; eassumption.
      * destruct reassign; cbn [mbind res_bind] in Hstep.
        -- eapply sameKeys_inProp; eassumption.
        -- match type of Hstep with mbind _ ?m = _ => destruct m as [s0 |] eqn:H0 end;
             [| discriminate].
           cbn [mbind res_bind] in Hstep.
           eapply sameKeys_inProp; [| exact Hstep].
           eapply sameKeys_inProp; eassumption.
      * destruct reassign; cbn [mbind res_bind] in Hstep.
        -- eapply sameKeys_inProp; eassumption.
        -- match type of Hstep with mbind _ ?m = _ => destruct m as [s0 |] eqn:H0 end;
             [| discriminate].
           cbn [mbind res_bind] in Hstep.
           eapply sameKeys_inProp; [| exact Hstep].
           eapply sameKeys_inProp; eassumption.
Qed.

Lemma propsNamed_app name (l1 l2 : list Node) : forall i,
  propsNamed name i (l1 ++ l2)
  = propsNamed name i l1 ++ propsNamed name (i + length l1) l2.
Proof.
  induction l1 as [| p l1 IH]; intros i; cbn [app propsNamed length].
  - rewrite Nat.add_0_r. reflexivity.
  - rewrite IH, <- app_assoc.
    replace (S i + length l1) with (i + S (length l1)) by lia. reflexivity.
Qed.

Lemma propsNamed_single name (ps1 ps2 : list Node) (o : Node) :
  existsb (hasKey name) (ps1 ++ ps2) = false ->
  propsNamed name 0 (ps1 ++ Property (Identifier name) o :: ps2) = [length ps1].
Proof.
  rewrite existsb_app. intros H. apply orb_false_elim in H as [H1 H2].
  rewrite propsNamed_app. cbn [propsNamed]. unfold hasKey.
  cbn [keyName nameOf]. rewrite String.eqb_refl.
  rewrite !propsNamed_nil by assumption. reflexivity.
Qed.

Lemma inProp_named (g : Node -> res Node) (ps1 ps2 : list Node) (k o : Node) :
  inProp (length ps1) g (ObjectExpression (ps1 ++ Property k o :: ps2))
  = (o' ← g o; Ok (ObjectExpression (ps1 ++ Property k o' :: ps2))).
Proof.
  unfold inProp. cbn [modifyAt children].
  rewrite list_lookup_middle by reflexivity.
  cbn [children lookup list_lookup]. destruct (g o) as [o' |]; [| reflexivity].
  cbn. rewrite insert_app_r_alt by lia. rewrite Nat.sub_diag. reflexivity.
Qed.

Lemma loop_cons ps k v (d : Desc) :
  loopThroughObjects (ObjectExpression ps) (VObj ((k, v) :: d))
  = (n ← propertyFor k v;
     loopThroughObjects (ObjectExpression (ps ++ [n])) (VObj d)).
Proof.
  rewrite !loop_VObj. cbn [mapR fst snd].
  destruct (propertyFor k v) as [n |]; [| reflexivity]. cbn [mbind res_bind].
  rewrite loop_VObj.
  destruct (mapR _ d); [| reflexivity]. cbn. rewrite <- app_assoc. reflexivity.
Qed.

(** X19: without reassignment, for a description without nested
    mappings and a target with exactly one property named [name] whose
    value is an object, [pushObjectKeys] does to that object what
    [loopThroughObjects] does, errors included. *)
Theorem append_below_named_property hashtable (ps1 ps2 : list Node)
    (name : string) (d : Desc)
    (Hone : existsb (hasKey name) (ps1 ++ ps2) = false)
    (Hflat : forallb (fun kv => isFlat kv.2) d = true) : forall qs,
  pushObjectKeys hashtable
    (ObjectExpression (ps1 ++ Property (Identifier name) (ObjectExpression qs) :: ps2))
    (VObj d) name false
  = (o ← loopThroughObjects (ObjectExpression qs) (VObj d);
     Ok (ObjectExpression (ps1 ++ Property (Identifier name) o :: ps2))).
Proof.
  induction d as [| [k v] d IH]; intros qs.
  - cbn [pushObjectKeys]. rewrite propsNamed_single by assumption. reflexivity.
  - cbn [forallb fst snd] in Hflat. apply andb_prop in Hflat as [Hv Hd].
    specialize (IH Hd).
    rewrite loop_cons.
    cbn [pushObjectKeys]. rewrite propsNamed_single by assumption.
    cbn [foldR].
    assert (Hstep : forall n,
      pushObjectKeys hashtable
        (ObjectExpression
           (ps1 ++ Property (Identifier name) (ObjectExpression (qs ++ [n])) :: ps2))
        (VObj d) name false
      = (o ← loopThroughObjects (ObjectExpression (qs ++ [n])) (VObj d);
         Ok (ObjectExpression (ps1 ++ Property (Identifier name) o :: ps2))))
      by (intros n; apply IH).
    cbn [pushObjectKeys] in Hstep.
    assert (Hp : forall o, propsNamed name 0
                   (ps1 ++ Property (Identifier name) o :: ps2) = [length ps1])
      by (intros o; apply propsNamed_single; assumption).
    unfold propertyFor.
    destruct (includes "inject" k).
    + rewrite inProp_named. cbn [isObjectExpression].
      destruct (createIdentifierOrLiteral v) as [n |]; [| reflexivity].
      cbn [mbind res_bind pushProperty].
      specialize (Hstep n). rewrite Hp in Hstep. cbn [foldR] in Hstep.
      exact Hstep.
    + destruct v; try discriminate.
      1-4: rewrite inProp_named; unfold pushCreateProperty;
           cbn [isObjectExpression];
           destruct (createIdentifierOrLiteral _) as [lit |]; [| reflexivity];
           cbn [mbind res_bind];
           destruct (createObjectWithSuppliedProperty k lit) as [pr |]; [| reflexivity];
           cbn [mbind res_bind pushProperty];
           specialize (Hstep pr); rewrite Hp in Hstep; cbn [foldR] in Hstep;
           exact Hstep.
      destruct (createArrayWithChildren k (VArr items) true) as [arr |]; [| reflexivity].
      cbn [mbind res_bind]. rewrite inProp_named. cbn [mbind res_bind pushProperty].
      specialize (Hstep arr). rewrite Hp in Hstep. cbn [foldR] in Hstep.
      exact Hstep.
Qed.

Lemma loop_app (p : Node) (d1 d2 : Desc) :
  loopThroughObjects p (VObj (d1 ++ d2))
  = (r ← loopThroughObjects p (VObj d1); loopThroughObjects r (VObj d2)).
Proof.
  revert p. induction d1 as [| [k v] d1 IH]; intros p; [reflexivity |].
  cbn [app loopThroughObjects] in IH |- *.
  match goal with |- mbind _ ?m = _ => destruct m as [p' | e] end;
    [| reflexivity].
  cbn [mbind res_bind]. apply IH.
Qed.

Lemma foldR_pushElement_mapR (k : Node) (items : list JsVal) : forall es,
  foldR (fun arr sub => n ← elementFor sub; pushElement n arr)
        (Property k (ArrayExpression es)) items
  = (new ← mapR elementFor items; Ok (Property k (ArrayExpression (es ++ new)))).
Proof.
  induction items as [| item items IH]; intros es; cbn [foldR mapR].
  - cbn. rewrite app_nil_r. reflexivity.
  - destruct (elementFor item) as [e |]; [| reflexivity]. cbn [mbind res_bind pushElement].
    rewrite IH. destruct (mapR elementFor items); [| reflexivity].
    cbn. rewrite <- app_assoc. reflexivity.
Qed.

Lemma propertyFor_wraps k v :
  includes "inject" k = false ->
  propertyFor k v = (value ← valueFor v; Ok (Property (Identifier k) value)).
Proof.
  intros Hk. unfold propertyFor, valueFor. rewrite Hk.
  destruct v as [s | n | b | r | items | d | n].
  1-4: rewrite createIdentifierOrLiteral_scalar by reflexivity;
       cbn [mbind res_bind]; unfold createObjectWithSuppliedProperty, j_property;
       rewrite scalarNode_isExpression; reflexivity.
  - rewrite createArrayWithChildren_elements, foldR_pushElement_mapR.
    destruct (mapR elementFor items); reflexivity.
  - destruct (loopThroughObjects (ObjectExpression []) (VObj d)) as [o |] eqn:Ho;
      [| reflexivity].
    apply loop_appends in Ho as (nodes & -> & _). reflexivity.
  - reflexivity.
Qed.

Lemma createIdentifierOrLiteral_bare (v : JsVal) (n : Node) :
  createIdentifierOrLiteral v = Ok n ->
  (exists lit, n = Literal lit) \/ (exists s, n = Identifier s).
Proof.
  destruct v as [s | x | b | r | | |]; try discriminate.
  - destruct (scalar_coercion s) as [_ ->]. unfold coerceScalar.
    repeat match goal with |- context [if ?c then _ else _] => destruct c end;
      intros [= <-]; eauto.
  - intros [= <-]; eauto.
  - intros [= <-]; eauto.
  - intros [= <-]; eauto.
Qed.

Lemma loop_at_key ps (d1 d2 : Desc) k v :
  loopThroughObjects (ObjectExpression ps) (VObj (d1 ++ (k, v) :: d2))
  = (r1 ← loopThroughObjects (ObjectExpression ps) (VObj d1);
     n ← propertyFor k v;
     r ← pushProperty n r1;
     loopThroughObjects r (VObj d2)).
Proof.
  rewrite loop_app.
  destruct (loopThroughObjects (ObjectExpression ps) (VObj d1)) as [r1 |] eqn:H1;
    [| reflexivity].
  apply loop_appends in H1 as (nodes & -> & _). cbn [mbind res_bind].
  rewrite loop_cons. destruct (propertyFor k v); reflexivity.
Qed.

(** C8: at a key of the description that contains the marker ["inject"],
    [loopThroughObjects] pushes what [createIdentifierOrLiteral] makes of
    the value, a bare literal or identifier, directly into the properties
    of the target, neither wrapped in a property nor in an object; at a
    key without the marker it pushes a property [key: value].
    [pushObjectKeys] without reassignment pushes the bare node below the
    named property in the same way. *)
Theorem marker_key_pushes_bare_value :
  (forall (ps : list Node) (d1 d2 : Desc) (k : string) (v : JsVal),
      includes "inject" k = true ->
      loopThroughObjects (ObjectExpression ps) (VObj (d1 ++ (k, v) :: d2))
      = (r1 ← loopThroughObjects (ObjectExpression ps) (VObj d1);
         n ← createIdentifierOrLiteral v;
         r ← pushProperty n r1;
         loopThroughObjects r (VObj d2))) /\
  (forall (v : JsVal) (n : Node),
      createIdentifierOrLiteral v = Ok n ->
      (exists lit, n = Literal lit) \/ (exists s, n = Identifier s)) /\
  (forall (ps : list Node) (d1 d2 : Desc) (k : string) (v : JsVal),
      includes "inject" k = false ->
      loopThroughObjects (ObjectExpression ps) (VObj (d1 ++ (k, v) :: d2))
      = (r1 ← loopThroughObjects (ObjectExpression ps) (VObj d1);
         value ← valueFor v;
         r ← pushProperty (Property (Identifier k) value) r1;
         loopThroughObjects r (VObj d2))) /\
  (forall hashtable (name k : string) (v : JsVal) (qs : list Node),
      includes "inject" k = true ->
      pushObjectKeys hashtable
        (ObjectExpression [Property (Identifier name) (ObjectExpression qs)])
        (VObj [(k, v)]) name false
      = (n ← createIdentifierOrLiteral v;
         Ok (ObjectExpression
               [Property (Identifier name) (ObjectExpression (qs ++ [n]))]))).
Proof.
  split; [| split; [| split]].
  - intros ps d1 d2 k v Hk. rewrite loop_at_key. unfold propertyFor. rewrite Hk.
    reflexivity.
  - exact createIdentifierOrLiteral_bare.
  - intros ps d1 d2 k v Hk. rewrite loop_at_key, propertyFor_wraps by assumption.
    destruct (loopThroughObjects (ObjectExpression ps) (VObj d1)); [| reflexivity].
    cbn [mbind res_bind]. destruct (valueFor v); reflexivity.
  - intros hashtable name k v qs Hk.
    cbn [pushObjectKeys propsNamed app]. unfold hasKey. cbn [keyName nameOf].
    rewrite String.eqb_refl. cbn [app foldR]. rewrite Hk.
    unfold inProp. cbn [modifyAt children lookup list_lookup isObjectExpression].
    destruct (createIdentifierOrLiteral v); reflexivity.
Qed.

(** X20: the merge of a sequence into an array property under
    reassignment keeps every element the array had and pushes one node per
    value that [hashtable] returns; it raises a [TypeError] when the value
    of the property is not an array. *)
Theorem merge_never_removes_elements hashtable (items : list JsVal) (property : Node) :
  (forall k es r,
      property = Property k (ArrayExpression es) ->
      mergeArray hashtable items property = Ok r ->
      exists pushed,
        r = Property k (ArrayExpression (es ++ pushed)) /\
        length pushed = length (hashtable (flat_map elemValue es ++ items))) /\
  ((forall k es, property <> Property k (ArrayExpression es)) ->
   mergeArray hashtable items property = Err TypeError).
Proof.
  split.
  - intros k es r -> Hrun.
    apply mergeArray_keeps_elements in Hrun as (pushed & Hmap & ->).
    exists pushed. split; [reflexivity |].
    clear -Hmap. revert pushed Hmap.
    induction (hashtable (flat_map elemValue es ++ items)) as [| v l IH];
      intros pushed; cbn [mapR].
    + intros [= <-]. reflexivity.
    + destruct (createIdentifierOrLiteral v); [| discriminate]. cbn.
      destruct (mapR createIdentifierOrLiteral l) as [bs |]; [| discriminate].
      cbn. intros [= <-]. cbn. f_equal. apply IH. reflexivity.
  - intros Hne. destruct property as [| | k v | | | |]; try reflexivity.
    destruct v; try reflexivity. exfalso. eapply Hne. reflexivity.
Qed.

End Properties.

(** * The helpers on concrete inputs *)

(** An instance of [plugin_not_found_appended]: an empty plugins array,
    [webpack.optimize.DedupePlugin] and [{sourceMap: true}]. *)
Lemma plugin_not_found_appended_witness :
  exists first rest,
    join_dot (first :: rest) = "webpack.optimize.DedupePlugin" /\
    forallb (fun part => negb (hasDot part)) (first :: rest) = true /\
    memberExpressionToPathString (nestedMember first rest)
    = Some "webpack.optimize.DedupePlugin" /\
    createOrUpdatePluginByName (ArrayExpression [])
      "webpack.optimize.DedupePlugin" (Some [("sourceMap", VBool true)])
    = Ok (ArrayExpression
            ([] ++
             [NewExpression (nestedMember first rest)
                [ObjectExpression [prop "sourceMap" (Literal (LBool true))]]])).
Proof.
  exact (plugin_not_found_appended (JN := IntNumber) []
           "webpack.optimize.DedupePlugin" [("sourceMap", VBool true)]
           eq_refl eq_refl).
Defined.

(** The claim C3 fails as it is stated for every description of options:
    with [{A: {b: "1"}}] the builder of the literal raises and nothing is
    appended. *)
Lemma plugin_not_found_counterexample :
  ~ appendsOneCallAsStated [] "webpack.DefinePlugin" [("A", VObj [("b", VStr "1")])].
Proof.
  intros (callee & argument & Hrun & _).
  assert (E : createOrUpdatePluginByName (JN := IntNumber) (ArrayExpression [])
                "webpack.DefinePlugin" (Some [("A", VObj [("b", VStr "1")])])
              = Err BuilderError) by reflexivity.
  discriminate (eq_trans (eq_sym E) Hrun).
Qed.

Example dedupe_plugin_appended :
  createOrUpdatePluginByName (ArrayExpression [])
    "webpack.optimize.DedupePlugin" (Some [("sourceMap", VBool true)])
  = Ok (ArrayExpression
          [NewExpression webpackOptimizeDedupePlugin
             [ObjectExpression [prop "sourceMap" (Literal (LBool true))]]]).
Proof. reflexivity. Qed.

(** An instance of [plugin_without_arguments_gains_object]:
    [new webpack.DefinePlugin()] and [{A: "1"}]. *)
Lemma plugin_without_arguments_gains_object_witness :
  createOrUpdatePluginByName
    (ArrayExpression [NewExpression webpackDefinePlugin []])
    "webpack.DefinePlugin" (Some [("A", VStr "1")])
  = Ok (ArrayExpression
          [NewExpression webpackDefinePlugin [ObjectExpression [prop "A" (int 1)]]]).
Proof.
  exact (plugin_without_arguments_gains_object (JN := IntNumber) [] []
           webpackDefinePlugin "webpack.DefinePlugin" [("A", VStr "1")]
           eq_refl eq_refl eq_refl eq_refl).
Defined.

(** The claim C7 fails as it is stated for every plugins array and every
    description of options: with [{A: {b: "1"}}] the builder of the
    literal raises, and next to [new webpack.DefinePlugin(1)], a call
    whose arguments hold no object, [Collection.get] raises. *)
Lemma plugin_without_arguments_counterexample :
  ~ gainsOneArgumentAsStated [NewExpression webpackDefinePlugin []]
      "webpack.DefinePlugin" [("A", VObj [("b", VStr "1")])] /\
  ~ gainsOneArgumentAsStated
      [NewExpression webpackDefinePlugin [];
       NewExpression webpackDefinePlugin [int 1]]
      "webpack.DefinePlugin" [("A", VStr "1")].
Proof.
  split; intros (elements' & Hrun & _).
  - assert (E : createOrUpdatePluginByName (JN := IntNumber)
                  (ArrayExpression [NewExpression webpackDefinePlugin []])
                  "webpack.DefinePlugin" (Some [("A", VObj [("b", VStr "1")])])
                = Err BuilderError) by reflexivity.
    discriminate (eq_trans (eq_sym E) Hrun).
  - assert (E : createOrUpdatePluginByName (JN := IntNumber)
                  (ArrayExpression
                     [NewExpression webpackDefinePlugin [];
                      NewExpression webpackDefinePlugin [int 1]])
                  "webpack.DefinePlugin" (Some [("A", VStr "1")])
                = Err EmptyCollection) by reflexivity.
    discriminate (eq_trans (eq_sym E) Hrun).
Qed.



(** An instance of [marker_key_pushes_bare_value]: the marker key
    beside a sequence of a number, beside a mapping, and below a named
    property. *)
Lemma marker_key_pushes_bare_value_witness :
  loopThroughObjects (ObjectExpression [])
    (VObj ([("a", VArr [VNum (Some 1%Z)])] ++ [("injectX", VStr "v")]))
  = Ok (ObjectExpression
          [prop "a" (ArrayExpression [ObjectExpression []]); Identifier "v"]) /\
  loopThroughObjects (ObjectExpression [])
    (VObj ([] ++ ("a", VObj [("b", VStr "1")]) :: [("injectHere", VStr "myVar")]))
  = Ok (ObjectExpression
          [prop "a" (ObjectExpression [prop "b" (int 1)]); Identifier "myVar"]) /\
  pushObjectKeys dedupe
    (ObjectExpression [prop "entry" (ObjectExpression [prop "a" (int 1)])])
    (VObj [("injectHere", VStr "myVar")]) "entry" false
  = Ok (ObjectExpression
          [prop "entry" (ObjectExpression [prop "a" (int 1); Identifier "myVar"])]).
Proof.
  pose proof (marker_key_pushes_bare_value (JN := IntNumber))
    as (Hmarker & _ & Hplain & Hbelow).
  split; [| split].
  - exact (eq_trans
             (Hmarker [] [("a", VArr [VNum (Some 1%Z)])] [] "injectX" (VStr "v")
                eq_refl)
             eq_refl).
  - exact (eq_trans
             (Hplain [] [] [("injectHere", VStr "myVar")] "a"
                (VObj [("b", VStr "1")]) eq_refl)
             eq_refl).
  - exact (eq_trans
             (Hbelow dedupe "entry" "injectHere" (VStr "myVar") [prop "a" (int 1)]
                eq_refl)
             eq_refl).
Defined.

Example marker_key_example :
  loopThroughObjects (ObjectExpression [])
    (VObj [("a", VObj [("b", VStr "1")]); ("injectHere", VStr "myVar")])
  = Ok (ObjectExpression
          [prop "a" (ObjectExpression [prop "b" (int 1)]); Identifier "myVar"]).
Proof. reflexivity. Qed.

(** An instance of [description_builds_object]. *)
Lemma description_builds_object_witness :
  exists props,
    loopThroughObjects (ObjectExpression [])
      (VObj [("mode", VStr "production"); ("watch", VStr "true");
             ("port", VNum (Some 8080%Z)); ("empty", VStr "");
             ("entry", VArr [VStr "app"; VObj [("main", VStr "index")]])])
    = Ok (ObjectExpression props) /\
    map keyName props
    = [Some "mode"; Some "watch"; Some "port"; Some "empty"; Some "entry"] /\
    props = [prop "mode" (Identifier "production");
             prop "watch" (Literal (LBool true));
             prop "port" (int 8080);
             prop "empty" (int 0);
             prop "entry" (ArrayExpression
                             [Identifier "app";
                              ObjectExpression [prop "main" (Identifier "index")]])].
Proof.
  exact (description_builds_object (JN := IntNumber)
           [("mode", VStr "production"); ("watch", VStr "true");
            ("port", VNum (Some 8080%Z)); ("empty", VStr "");
            ("entry", VArr [VStr "app"; VObj [("main", VStr "index")]])]
           eq_refl eq_refl).
Defined.

(** The claim C1 fails as it is stated: the empty string is a string
    other than ["true"] and ["false"], and it is read back as the number
    0. *)
Lemma round_trip_counterexample :
  ~ roundTripsAsStated [("a", VStr "")].
Proof.
  intros (props & Hrun & _ & Hleaf).
  assert (E : loopThroughObjects (ObjectExpression []) (VObj [("a", VStr "")])
              = Ok (ObjectExpression [prop "a" (int 0)]))
    by reflexivity.
  rewrite E in Hrun. injection Hrun as <-.
  apply Forall2_cons_1 in Hleaf as [Hn _].
  destruct (Hn eq_refl) as (k & val & [= <- <-] & Hread).
  discriminate Hread.
Qed.

(** C4 on the code: the plugins array holds
    [new webpack.DefinePlugin({A: 1})] and the options are [{A: "2"}].
    The key of the option is never found among the properties of the
    argument (lemma [mergeOption_appends]), and the argument ends with two
    properties for [A]. *)
Theorem existing_option_is_duplicated :
  createOrUpdatePluginByName
    (ArrayExpression
       [NewExpression webpackDefinePlugin [ObjectExpression [prop "A" (int 1)]]])
    "webpack.DefinePlugin" (Some [("A", VStr "2")])
  = Ok (ArrayExpression
          [NewExpression webpackDefinePlugin
             [ObjectExpression [prop "A" (int 1); prop "A" (int 2)]]]).
Proof. reflexivity. Qed.

(** C6 on the code: the array [arr] of [entry] holds ['a', 'b'] (or the
    identifiers [a, b]) and the description gives [arr: ['b', 'c']].  The
    merged values are pushed behind the elements that the array had, so
    [b] is in the array twice. *)
Theorem merged_array_repeats_elements :
  pushObjectKeys dedupe (entryWithArray [str "a"; str "b"])
    (VObj [("arr", VArr [VStr "b"; VStr "c"])]) "entry" true
  = Ok (entryWithArray
          [str "a"; str "b"; Identifier "a"; Identifier "b"; Identifier "c"]) /\
  pushObjectKeys dedupe (entryWithArray [Identifier "a"; Identifier "b"])
    (VObj [("arr", VArr [VStr "b"; VStr "c"])]) "entry" true
  = Ok (entryWithArray
          [Identifier "a"; Identifier "b"; Identifier "b"; Identifier "c"]).
Proof. split; reflexivity. Qed.

(** C5 on the code: the description [{arr: ['x']}] merged twice into
    [{entry: {arr: []}}] with reassignment leaves [x] twice in the array;
    merged once it leaves it once. *)
Theorem reassign_twice_differs :
  pushObjectKeys dedupe (entryWithArray [])
    (VObj [("arr", VArr [VStr "x"])]) "entry" true
  = Ok (entryWithArray [Identifier "x"]) /\
  pushObjectKeys dedupe (entryWithArray [Identifier "x"])
    (VObj [("arr", VArr [VStr "x"])]) "entry" true
  = Ok (entryWithArray [Identifier "x"; Identifier "x"]).
Proof. split; reflexivity. Qed.

(** ** Instances of the further properties *)

Lemma member_expression_round_trip_witness :
  exists callee,
    pathsToMemberExpression ["DedupePlugin"; "optimize"; "webpack"] = Some callee /\
    memberExpressionToPathString (JN := IntNumber) callee
    = Some (join_dot (rev ["DedupePlugin"; "optimize"; "webpack"])).
Proof.
  apply (proj2 (member_expression_round_trip (JN := IntNumber)
                  ["DedupePlugin"; "optimize"; "webpack"])).
  discriminate.
Defined.

Lemma scalar_builders_domain_witness :
  (exists lit, createLiteral (JN := IntNumber) (VStr "main") = Ok (Literal lit)) /\
  ((exists lit, createIdentifierOrLiteral (JN := IntNumber) (VStr "main")
                = Ok (Literal lit) /\ forall s, lit <> LStr s) \/
   (exists s, VStr "main" = VStr s /\
              createIdentifierOrLiteral (JN := IntNumber) (VStr "main")
              = Ok (Identifier s))).
Proof.
  exact (proj1 (scalar_builders_domain (JN := IntNumber) (VStr "main")) eq_refl).
Defined.

Lemma nested_option_is_rejected_witness :
  createOrUpdatePluginByName definePluginOnly "webpack.DefinePlugin"
    (Some [("A", VStr "1"); ("B", VObj [("c", VStr "2")])])
  = Err BuilderError.
Proof.
  exact (nested_option_is_rejected (JN := IntNumber) definePluginOnly
           "webpack.DefinePlugin"
           [("A", VStr "1"); ("B", VObj [("c", VStr "2")])] eq_refl).
Defined.

Lemma plugin_without_options_settles_witness :
  (findPluginsByName (JN := IntNumber) (ArrayExpression []) ["webpack.DefinePlugin"]
   <> [] -> definePluginOnly = ArrayExpression []) /\
  (findPluginsByName (JN := IntNumber) (ArrayExpression []) ["webpack.DefinePlugin"]
   = [] ->
   exists elements callee,
     ArrayExpression [] = ArrayExpression elements /\
     memberExpressionToPathString callee = Some "webpack.DefinePlugin" /\
     definePluginOnly = ArrayExpression (elements ++ [NewExpression callee []])) /\
  createOrUpdatePluginByName definePluginOnly "webpack.DefinePlugin" None
  = Ok definePluginOnly.
Proof.
  exact (plugin_without_options_settles (JN := IntNumber) (ArrayExpression [])
           "webpack.DefinePlugin" definePluginOnly eq_refl).
Defined.

Lemma plugins_found_exactly_witness :
  In [0] (findPluginsByName definePluginOnly ["webpack.HotPlugin"; "webpack.DefinePlugin"]).
Proof.
  apply (proj2 (plugins_found_exactly (JN := IntNumber) definePluginOnly
                  ["webpack.HotPlugin"; "webpack.DefinePlugin"] [0])).
  split; [discriminate |].
  exists webpackDefinePlugin, [], "webpack.DefinePlugin".
  split; [reflexivity |]. split; [right; left; reflexivity | reflexivity].
Defined.

Lemma root_nodes_found_exactly_witness :
  In [0; 1; 0] (findRootNodesByName (entryWithArray [str "a"]) "arr").
Proof.
  apply (proj2 (root_nodes_found_exactly (JN := IntNumber)
                  (entryWithArray [str "a"]) "arr" [0; 1; 0])).
  split; [discriminate |]. exists (ArrayExpression [str "a"]). reflexivity.
Defined.

Lemma plugins_array_grows_by_at_most_one_witness :
  exists es',
    ArrayExpression
      [NewExpression webpackDefinePlugin [ObjectExpression [prop "A" (int 1)]]]
    = ArrayExpression es' /\
    length es' = match findPluginsByName definePluginOnly ["webpack.DefinePlugin"] with
                 | [] => 2
                 | _ => 1
                 end.
Proof.
  exact (plugins_array_grows_by_at_most_one (JN := IntNumber)
           [NewExpression webpackDefinePlugin []] "webpack.DefinePlugin"
           (Some [("A", VStr "1")])
           (ArrayExpression
              [NewExpression webpackDefinePlugin [ObjectExpression [prop "A" (int 1)]]])
           eq_refl).
Defined.

Lemma safeTraverse_composes_and_guards_witness :
  safeTraverse (FNode (prop "entry" (int 1))) (["key"] ++ ["name"])
  = safeTraverse (safeTraverse (FNode (prop "entry" (int 1))) ["key"]) ["name"] /\
  safeTraverse (V := @FieldVal IntNumber) FUndefined ["key"; "name"] = js_null /\
  safeTraverse (FNode (prop "entry" (int 1))) ["key"]
  = js_get (FNode (prop "entry" (int 1))) "key".
Proof.
  pose proof (safeTraverse_composes_and_guards (V := @FieldVal IntNumber))
    as (Happ & Hnull & Hone).
  split; [| split].
  - exact (Happ (FNode (prop "entry" (int 1))) ["key"] ["name"]).
  - exact (Hnull FUndefined "key" ["name"] eq_refl).
  - exact (Hone (FNode (prop "entry" (int 1))) "key" eq_refl).
Defined.

Lemma named_property_filter_witness :
  safeTraverse (FNode (prop "entry" (int 1))) ["key"; "name"] = FString "entry" /\
  safeTraverse (FNode (Identifier (JN := IntNumber) "myVar")) ["key"; "name"] = FNull.
Proof.
  split.
  - exact (proj2 (proj1 (named_property_filter (JN := IntNumber)
                           (prop "entry" (int 1)) "entry")) eq_refl).
  - exact (proj2 (named_property_filter (JN := IntNumber) (Identifier "myVar") "entry")
             eq_refl).
Defined.

Lemma property_set_then_read_witness :
  exists ps',
    ObjectExpression [prop "a" (int 3); prop "a" (int 2)] = ObjectExpression ps' /\
    valueOfKey "a" ps' = Some (int 3) /\
    (forall key', key' <> "a" -> valueOfKey key' ps' = valueOfKey key' twoProperties) /\
    length ps' = (if existsb (hasKey "a") twoProperties
                  then length twoProperties else S (length twoProperties)).
Proof.
  exact (property_set_then_read (JN := IntNumber) twoProperties "a" (int 3)
           (ObjectExpression [prop "a" (int 3); prop "a" (int 2)]) eq_refl).
Defined.

Lemma last_value_wins_witness :
  checkIfExistsAndAddValue
    (ObjectExpression (entryAndOutput ++ [prop "mode" (str "dev")]))
    "mode" (VNode (str "prod"))
  = checkIfExistsAndAddValue (ObjectExpression entryAndOutput) "mode" (VNode (str "prod")) /\
  checkIfExistsAndAddValue
    (ObjectExpression (entryAndOutput ++ [prop "mode" (str "dev")]))
    "mode" (VNode (str "dev"))
  = Ok (ObjectExpression (entryAndOutput ++ [prop "mode" (str "dev")])).
Proof.
  exact (last_value_wins (JN := IntNumber) entryAndOutput "mode" (str "dev") (str "prod")
           (ObjectExpression (entryAndOutput ++ [prop "mode" (str "dev")]))
           eq_refl eq_refl).
Defined.

Lemma missing_target_is_left_alone_witness :
  pushObjectKeys dedupe (ObjectExpression entryAndOutput)
    (VObj [("a", VStr "b")]) "plugins" true
  = Ok (ObjectExpression entryAndOutput) /\
  pushObjectKeys dedupe (str "dist") (VObj [("a", VStr "b")]) "plugins" true
  = Err TypeError.
Proof.
  split.
  - exact (proj1 (missing_target_is_left_alone (JN := IntNumber) dedupe
                    (ObjectExpression entryAndOutput) (VObj [("a", VStr "b")])
                    "plugins" true) entryAndOutput eq_refl eq_refl).
  - exact (proj2 (missing_target_is_left_alone (JN := IntNumber) dedupe
                    (str "dist") (VObj [("a", VStr "b")]) "plugins" true) eq_refl).
Defined.

Lemma existing_properties_are_kept_witness :
  exists nodes,
    ObjectExpression (twoProperties ++ [prop "a" (int 3)])
    = ObjectExpression (twoProperties ++ nodes) /\
    (forall qs, loopThroughObjects (ObjectExpression qs) (VObj [("a", VStr "3")])
                = Ok (ObjectExpression (qs ++ nodes))) /\
    (forall d, VObj [("a", VStr "3")] = VObj d -> length nodes = length d) /\
    (forall items, VObj [("a", VStr "3")] = VArr items -> length nodes = length items).
Proof.
  exact (existing_properties_are_kept (JN := IntNumber) twoProperties
           (VObj [("a", VStr "3")])
           (ObjectExpression (twoProperties ++ [prop "a" (int 3)])) eq_refl).
Defined.

Lemma array_children_shape_witness :
  (exists es,
      prop "rules" (ArrayExpression
                      [Identifier "a"; ObjectExpression []; ObjectExpression [prop "0" (int 2)]])
      = Property (Identifier "rules") (ArrayExpression es) /\
      Forall2 elementShape [VStr "a"; VNum (Some 1%Z); VArr [VStr "2"]] es) /\
  createArrayWithChildren (JN := IntNumber) "rules" (VStr "a") true = Err TypeError.
Proof.
  split.
  - exact (proj1 (array_children_shape (JN := IntNumber) "rules"
                    (VArr [VStr "a"; VNum (Some 1%Z); VArr [VStr "2"]]))
             [VStr "a"; VNum (Some 1%Z); VArr [VStr "2"]]
             (prop "rules" (ArrayExpression
                              [Identifier "a"; ObjectExpression [];
                               ObjectExpression [prop "0" (int 2)]]))
             eq_refl eq_refl).
  - apply (proj2 (array_children_shape (JN := IntNumber) "rules" (VStr "a"))).
    intros items. discriminate.
Defined.

Lemma target_keys_are_kept_witness :
  exists ps',
    ObjectExpression
      [prop "entry" (ObjectExpression [prop "a" (int 1); prop "b" (Identifier "x")]);
       prop "output" (str "dist")]
    = ObjectExpression ps' /\
    map keyName ps' = map keyName entryAndOutput.
Proof.
  exact (target_keys_are_kept (JN := IntNumber) dedupe entryAndOutput
           (VObj [("b", VStr "x")]) "entry" true
           (ObjectExpression
              [prop "entry" (ObjectExpression [prop "a" (int 1); prop "b" (Identifier "x")]);
               prop "output" (str "dist")])
           eq_refl).
Defined.

Lemma append_below_named_property_witness :
  pushObjectKeys dedupe
    (ObjectExpression
       ([] ++ Property (Identifier "entry") (ObjectExpression [prop "a" (int 1)])
           :: [prop "output" (str "dist")]))
    (VObj [("b", VStr "x"); ("c", VArr [VStr "y"])]) "entry" false
  = (o ← loopThroughObjects (ObjectExpression [prop "a" (int 1)])
           (VObj [("b", VStr "x"); ("c", VArr [VStr "y"])]);
     Ok (ObjectExpression
           ([] ++ Property (Identifier "entry") o :: [prop "output" (str "dist")]))).
Proof.
  exact (append_below_named_property (JN := IntNumber) dedupe []
           [prop "output" (str "dist")] "entry"
           [("b", VStr "x"); ("c", VArr [VStr "y"])] eq_refl eq_refl
           [prop "a" (int 1)]).
Defined.

Lemma merge_never_removes_elements_witness :
  (exists pushed,
      prop "arr" (ArrayExpression [str "a"; Identifier "a"; Identifier "b"])
      = Property (Identifier "arr") (ArrayExpression ([str "a"] ++ pushed)) /\
      length pushed = length (dedupe (flat_map elemValue [str "a"] ++ [VStr "b"]))) /\
  mergeArray dedupe [VStr "b"] (prop "arr" (int 1)) = Err TypeError.
Proof.
  split.
  - exact (proj1 (merge_never_removes_elements (JN := IntNumber) dedupe [VStr "b"]
                    (prop "arr" (ArrayExpression [str "a"])))
             (Identifier "arr") [str "a"]
             (prop "arr" (ArrayExpression [str "a"; Identifier "a"; Identifier "b"]))
             eq_refl eq_refl).
  - apply (proj2 (merge_never_removes_elements (JN := IntNumber) dedupe [VStr "b"]
                    (prop "arr" (int 1)))).
    intros k es. discriminate.
Defined.
